(** * davisweather: the Report store, the payload decoders and the UDP lease
    watchdog, as a shallow embedding of the Go sources.

    - [parser/*.go]: the JSON decoding done by [encoding/json] for the
      structs of the parser package is modelled over a small JSON value type;
    - [report.go]: [Report] with its merges [UpdateHTTP], [UpdateUDP],
      [UpdateJSON], the common [updateHook], [Copy], [Encode], [Decode];
    - [engine.go]: one iteration of [udpWatchdog], of the HTTP event loop
      and of the read loop of the UDP event loop;
    - the client constructor [Unmanaged], [wllUnit.GetURL] and the mDNS
      responder loop [mDNSLoop]. *)

From Stdlib Require Import String List ZArith Bool Lia.
From Stdlib Require Import FunctionalExtensionality.
Import ListNotations.
Open Scope string_scope.
Set Warnings "-register-all".

(** ** Go run-time outcomes *)

(** The result of a Go call returning [error]: [nil], an error, or a
    run-time panic (nil pointer dereference, failed type assertion). *)
Inductive GoRes := GoOk | GoErr (msg : string) | GoPanic.

(** A Go call returning [(T, error)]. *)
Inductive gres (A : Type) := ROk (a : A) | RErr (msg : string) | RPanic.
Arguments ROk {A} a. Arguments RErr {A} msg. Arguments RPanic {A}.

(** ** JSON values and [encoding/json] decoding

    Numbers are integers: the only numeric literals this development feeds
    the decoders are integral, and [Time.UnmarshalJSON] only accepts integral
    literals ([strconv.ParseInt]). Object keys are matched exactly. *)
Inductive json :=
| JNull
| JBool (b : bool)
| JNum (z : Z)
| JStr (s : string)
| JArr (xs : list json)
| JObj (kvs : list (string * json)).

(** Decoding state of [encoding/json]'s [decodeState]: a value together with
    the first "saved" type error ([d.saveError]: decoding continues and the
    error is reported at the end), a hard error returned at once (errors of
    an [UnmarshalJSON] method), or a panic. *)
Inductive dres (A : Type) :=
| DOk (a : A) (saved : option string)
| DErr (e : string)
| DPanic.
Arguments DOk {A} a saved. Arguments DErr {A} e. Arguments DPanic {A}.

Definition first_err (e1 e2 : option string) : option string :=
  match e1 with Some _ => e1 | None => e2 end.

Definition dbind {A B} (m : dres A) (k : A -> dres B) : dres B :=
  match m with
  | DOk a e =>
      match k a with
      | DOk b e' => DOk b (first_err e e')
      | DErr x => DErr x
      | DPanic => DPanic
      end
  | DErr x => DErr x
  | DPanic => DPanic
  end.

Definition err_type : string := "json: cannot unmarshal into Go value".
Definition err_parseint : string := "strconv.ParseInt: parsing: invalid syntax".
Definition err_nil_target : string := "json: Unmarshal(nil)".

Definition int64_min : Z := - 2 ^ 63.
Definition int64_max : Z := 2 ^ 63 - 1.

(** [*float64], [*int] and [*RecordType] fields: [null] clears the pointer,
    a number sets it, anything else is a saved type error. The value left
    behind on a type error is never observed: the enclosing [Unmarshal]
    returns the error. *)
Definition dec_ptr_num (old : option Z) (j : json) : dres (option Z) :=
  match j with
  | JNull => DOk None None
  | JNum z => DOk (Some z) None
  | _ => DOk old (Some err_type)
  end.

(** [string] fields: [null] is a no-op. *)
Definition dec_string (old : string) (j : json) : dres string :=
  match j with
  | JNull => DOk old None
  | JStr s => DOk s None
  | _ => DOk old (Some err_type)
  end.

(** [*Time] fields ([parser/time.go]): [null] clears the pointer; any other
    literal is handed to [Time.UnmarshalJSON], which runs
    [strconv.ParseInt(string(payload), 10, 64)] and fails (a hard error) on
    anything but an integral literal in the [int64] range. *)
Definition dec_time (old : option Z) (j : json) : dres (option Z) :=
  match j with
  | JNull => DOk None None
  | JNum z =>
      if (int64_min <=? z)%Z && (z <=? int64_max)%Z then DOk (Some z) None
      else DErr err_parseint
  | _ => DErr err_parseint
  end.

(** A struct: the object's members are decoded in order into the fields
    selected by [field] (unknown keys ignored by [field]); [null] is a no-op;
    any other value is a saved type error. *)
Definition dec_object {A} (field : A -> string -> json -> dres A) (old : A)
    (j : json) : dres A :=
  match j with
  | JObj kvs =>
      fold_left (fun acc kv => dbind acc (fun a => field a (fst kv) (snd kv)))
        kvs (DOk old None)
  | JNull => DOk old None
  | _ => DOk old (Some err_type)
  end.

(** A pointer to a struct: [null] sets it to nil, anything else is decoded
    into the pointed-to value (allocated when nil). *)
Definition dec_ptr {A} (dec : A -> json -> dres A) (zero : A) (old : option A)
    (j : json) : dres (option A) :=
  match j with
  | JNull => DOk None None
  | _ => dbind (dec (match old with Some a => a | None => zero end) j)
           (fun a => DOk (Some a) None)
  end.

(** Array elements are decoded into the slice's existing elements, then
    into fresh zero values. *)
Fixpoint dec_elems {A} (dec : A -> json -> dres A) (zero : A) (old : list A)
    (i : nat) (xs : list json) : dres (list A) :=
  match xs with
  | [] => DOk [] None
  | x :: xs' =>
      dbind (dec (nth i old zero) x) (fun a =>
      dbind (dec_elems dec zero old (S i) xs') (fun rest => DOk (a :: rest) None))
  end.

(** A slice: [null] sets it to nil, an array is decoded element-wise. *)
Definition dec_slice {A} (dec : A -> json -> dres A) (zero : A) (old : list A)
    (j : json) : dres (list A) :=
  match j with
  | JNull => DOk [] None
  | JArr xs => dec_elems dec zero old 0 xs
  | _ => DOk old (Some err_type)
  end.

(** [json.Unmarshal(payload, &v)] with [v] initially [init]: a saved error
    becomes the returned error. *)
Definition Unmarshal {A} (dec : A -> json -> dres A) (init : A) (j : json) : gres A :=
  match dec init j with
  | DOk a None => ROk a
  | DOk _ (Some e) => RErr e
  | DErr e => RErr e
  | DPanic => RPanic
  end.

(** ** Measurement fields

    The nullable measurements of [Report] and of the parser's records share
    their Go field names; [NumField] names the [*float64] ones and
    [TimeField] the [*time.Time] / [*parser.Time] ones, in declaration
    order of [Report]. *)
Inductive NumField :=
| Temperature | Humidity | Dewpoint | Wetbulb | HeatIndex | WindChill
| THWIndex | THSWIndex
| WindSpeedLast | WindDirLast | WindSpeedAvgLast1Min | WindDirAvgLast1Min
| WindSpeedAvgLast2Min | WindDirAvgLast2Min | WindSpeedHighLast2Min
| WindDirAtHighLast2Min | WindSpeedAvgLast10Min | WindDirAvgLast10Min
| WindSpeedHighLast10Min | WindDirAtHighLast10Min
| RainSize | RainRateLast | RainRateHigh | RainLast15Min
| RainRateHighLast15Min | RainLast60Min | RainLast24Hour | RainStorm
| SolarRad | UVIndex
| RainfallDaily | RainfallMonthly | RainfallYear | RainStormLast
| BarometerSeaLevel | BarometerTrend | BarometerAbsolute
| TemperatureIndoor | HumidityIndoor | DewPointIndoor | HeatIndexIndoor.

Inductive TimeField := RainStormStartAt | RainStormLastStartAt | RainStormLastEndAt.

Scheme Equality for NumField.
Scheme Equality for TimeField.

Definition all_num_fields : list NumField :=
  [Temperature; Humidity; Dewpoint; Wetbulb; HeatIndex; WindChill;
   THWIndex; THSWIndex;
   WindSpeedLast; WindDirLast; WindSpeedAvgLast1Min; WindDirAvgLast1Min;
   WindSpeedAvgLast2Min; WindDirAvgLast2Min; WindSpeedHighLast2Min;
   WindDirAtHighLast2Min; WindSpeedAvgLast10Min; WindDirAvgLast10Min;
   WindSpeedHighLast10Min; WindDirAtHighLast10Min;
   RainSize; RainRateLast; RainRateHigh; RainLast15Min;
   RainRateHighLast15Min; RainLast60Min; RainLast24Hour; RainStorm;
   SolarRad; UVIndex;
   RainfallDaily; RainfallMonthly; RainfallYear; RainStormLast;
   BarometerSeaLevel; BarometerTrend; BarometerAbsolute;
   TemperatureIndoor; HumidityIndoor; DewPointIndoor; HeatIndexIndoor].

Definition all_time_fields : list TimeField :=
  [RainStormStartAt; RainStormLastStartAt; RainStormLastEndAt].

(** The nullable measurements of one Go struct, indexed by field name; a
    field the struct does not have stays [None]. *)
Record Meas := mkMeas {
  m_num : NumField -> option Z;
  m_tm : TimeField -> option Z }.

Definition empty_meas : Meas := mkMeas (fun _ => None) (fun _ => None).

Definition upd_num (m : NumField -> option Z) (f : NumField) (v : option Z) :=
  fun g => if NumField_beq g f then v else m g.
Definition upd_tm (m : TimeField -> option Z) (t : TimeField) (v : option Z) :=
  fun g => if TimeField_beq g t then v else m g.

(** The first field of [fs] whose JSON tag is [k]. *)
Fixpoint find_tag {F} (tag : F -> option string) (fs : list F) (k : string) : option F :=
  match fs with
  | [] => None
  | f :: fs' =>
      match tag f with
      | Some k' => if String.eqb k k' then Some f else find_tag tag fs' k
      | None => find_tag tag fs' k
      end
  end.

(** Decoding of the measurement member [k] of a struct whose JSON tags are
    [ntag] ([*float64] fields) and [ttag] ([*Time] fields); [None] when [k]
    is not one of them. *)
Definition dec_meas_member (ntag : NumField -> option string)
    (ttag : TimeField -> option string) (m : Meas) (k : string) (v : json)
    : option (dres Meas) :=
  match find_tag ntag all_num_fields k with
  | Some f => Some (dbind (dec_ptr_num (m_num m f) v)
                     (fun x => DOk (mkMeas (upd_num (m_num m) f x) (m_tm m)) None))
  | None =>
      match find_tag ttag all_time_fields k with
      | Some t => Some (dbind (dec_time (m_tm m t) v)
                         (fun x => DOk (mkMeas (m_num m) (upd_tm (m_tm m) t x)) None))
      | None => None
      end
  end.

(** ** Package [parser] *)
Module Parser.

(** [constants.go] *)
Definition RecordISS : Z := 1.
Definition RecordLSSBarometer : Z := 3.
Definition RecordLSSTempRh : Z := 4.
Definition SignalSynced : Z := 0.
Definition SignalRescan : Z := 1.
Definition SignalLost : Z := 2.
Definition BatteryNominal : Z := 0.
Definition BatteryWarning : Z := 1.

(** A non-pointer [int] field: [null] is a no-op. *)
Definition dec_int (old : Z) (j : json) : dres Z :=
  match j with
  | JNull => DOk old None
  | JNum z => DOk z None
  | _ => DOk old (Some err_type)
  end.

(** [error.go]: [Error]. *)
Record Error := mkError { Code : Z; Message : string }.
Definition zero_Error : Error := mkError 0 "".
Definition dec_Error : Error -> json -> dres Error :=
  dec_object (fun e k v =>
    if String.eqb k "code" then dbind (dec_int (Code e) v) (fun x => DOk (mkError x (Message e)) None)
    else if String.eqb k "message" then dbind (dec_string (Message e) v) (fun x => DOk (mkError (Code e) x) None)
    else DOk e None).

(** JSON tags of the [*float64] and [*Time] fields of [EntryUDP]. *)
Definition udp_num_tag (f : NumField) : option string :=
  match f with
  | WindSpeedLast => Some "wind_speed_last"
  | WindDirLast => Some "wind_dir_last"
  | RainSize => Some "rain_size"
  | RainRateLast => Some "rain_rate_last"
  | RainLast15Min => Some "rain_15_min"
  | RainLast60Min => Some "rain_60_min"
  | RainLast24Hour => Some "rain_24_hr"
  | RainStorm => Some "rain_storm"
  | RainfallDaily => Some "rainfall_daily"
  | RainfallMonthly => Some "rainfall_monthly"
  | RainfallYear => Some "rainfall_year"
  | WindSpeedHighLast10Min => Some "wind_speed_hi_last_10_min"
  | WindDirAtHighLast10Min => Some "wind_dir_at_hi_speed_last_10_min"
  | _ => None
  end.
Definition udp_time_tag (t : TimeField) : option string :=
  match t with RainStormStartAt => Some "rain_storm_start_at" | _ => None end.

(** JSON tags of the [*float64] and [*Time] fields of [WeatherISS]. *)
Definition iss_num_tag (f : NumField) : option string :=
  match f with
  | Temperature => Some "temp"
  | Humidity => Some "hum"
  | Dewpoint => Some "dew_point"
  | Wetbulb => Some "wet_bulb"
  | HeatIndex => Some "heat_index"
  | WindChill => Some "wind_chill"
  | THWIndex => Some "thw_index"
  | THSWIndex => Some "thsw_index"
  | WindSpeedLast => Some "wind_speed_last"
  | WindDirLast => Some "wind_dir_last"
  | WindSpeedAvgLast1Min => Some "wind_speed_avg_last_1_min"
  | WindDirAvgLast1Min => Some "wind_dir_scalar_avg_last_1_min"
  | WindSpeedAvgLast2Min => Some "wind_speed_avg_last_2_min"
  | WindDirAvgLast2Min => Some "wind_dir_scalar_avg_last_2_min"
  | WindSpeedHighLast2Min => Some "wind_speed_hi_last_2_min"
  | WindDirAtHighLast2Min => Some "wind_dir_at_hi_speed_last_2_min"
  | WindSpeedAvgLast10Min => Some "wind_speed_avg_last_10_min"
  | WindDirAvgLast10Min => Some "wind_dir_scalar_avg_last_10_min"
  | WindSpeedHighLast10Min => Some "wind_speed_hi_last_10_min"
  | WindDirAtHighLast10Min => Some "wind_dir_at_hi_speed_last_10_min"
  | RainSize => Some "rain_size"
  | RainRateLast => Some "rain_rate_last"
  | RainRateHigh => Some "rain_rate_hi"
  | RainLast15Min => Some "rainfall_last_15_min"
  | RainRateHighLast15Min => Some "rain_rate_hi_last_15_min"
  | RainLast60Min => Some "rainfall_last_60_min"
  | RainLast24Hour => Some "rainfall_last_24_hr"
  | RainStorm => Some "rain_storm"
  | SolarRad => Some "solar_rad"
  | UVIndex => Some "uv_index"
  | RainfallDaily => Some "rainfall_daily"
  | RainfallMonthly => Some "rainfall_monthly"
  | RainfallYear => Some "rainfall_year"
  | RainStormLast => Some "rain_storm_last"
  | _ => None
  end.
Definition iss_time_tag (t : TimeField) : option string :=
  match t with
  | RainStormStartAt => Some "rain_storm_start_at"
  | RainStormLastStartAt => Some "rain_storm_last_start_at"
  | RainStormLastEndAt => Some "rain_storm_last_end_at"
  end.

(** JSON tags of [WeatherLSSBarometer] and [WeatherLSSTempRh]. *)
Definition baro_num_tag (f : NumField) : option string :=
  match f with
  | BarometerSeaLevel => Some "bar_sea_level"
  | BarometerTrend => Some "bar_trend"
  | BarometerAbsolute => Some "bar_absolute"
  | _ => None
  end.
Definition temprh_num_tag (f : NumField) : option string :=
  match f with
  | TemperatureIndoor => Some "temp_in"
  | HumidityIndoor => Some "hum_in"
  | DewPointIndoor => Some "dew_point_in"
  | HeatIndexIndoor => Some "heat_index_in"
  | _ => None
  end.
Definition no_time_tag (t : TimeField) : option string := None.

(** [EntryUDP] and [ConditionsUDP]. *)
Record EntryUDP := mkEntryUDP {
  eu_LogicalSensorID : option Z;
  eu_DataStructureType : option Z;
  eu_TransmitterID : option Z;
  eu_meas : Meas }.
Definition zero_EntryUDP : EntryUDP := mkEntryUDP None None None empty_meas.

Definition dec_EntryUDP : EntryUDP -> json -> dres EntryUDP :=
  dec_object (fun e k v =>
    if String.eqb k "lsid" then
      dbind (dec_ptr_num (eu_LogicalSensorID e) v) (fun x =>
        DOk (mkEntryUDP x (eu_DataStructureType e) (eu_TransmitterID e) (eu_meas e)) None)
    else if String.eqb k "data_structure_type" then
      dbind (dec_ptr_num (eu_DataStructureType e) v) (fun x =>
        DOk (mkEntryUDP (eu_LogicalSensorID e) x (eu_TransmitterID e) (eu_meas e)) None)
    else if String.eqb k "txid" then
      dbind (dec_ptr_num (eu_TransmitterID e) v) (fun x =>
        DOk (mkEntryUDP (eu_LogicalSensorID e) (eu_DataStructureType e) x (eu_meas e)) None)
    else match dec_meas_member udp_num_tag udp_time_tag (eu_meas e) k v with
         | Some d => dbind d (fun m =>
             DOk (mkEntryUDP (eu_LogicalSensorID e) (eu_DataStructureType e)
                    (eu_TransmitterID e) m) None)
         | None => DOk e None
         end).

Record ConditionsUDP := mkConditionsUDP {
  cu_DeviceID : string;
  cu_Timestamp : option Z;
  cu_Conditions : list EntryUDP }.
Definition zero_ConditionsUDP : ConditionsUDP := mkConditionsUDP "" None [].

Definition dec_ConditionsUDP : ConditionsUDP -> json -> dres ConditionsUDP :=
  dec_object (fun c k v =>
    if String.eqb k "did" then
      dbind (dec_string (cu_DeviceID c) v) (fun x =>
        DOk (mkConditionsUDP x (cu_Timestamp c) (cu_Conditions c)) None)
    else if String.eqb k "ts" then
      dbind (dec_time (cu_Timestamp c) v) (fun x =>
        DOk (mkConditionsUDP (cu_DeviceID c) x (cu_Conditions c)) None)
    else if String.eqb k "conditions" then
      dbind (dec_slice dec_EntryUDP zero_EntryUDP (cu_Conditions c) v) (fun x =>
        DOk (mkConditionsUDP (cu_DeviceID c) (cu_Timestamp c) x) None)
    else DOk c None).

(** [ParseUDP] *)
Definition ParseUDP (payload : json) : gres ConditionsUDP :=
  Unmarshal dec_ConditionsUDP zero_ConditionsUDP payload.

(** [WeatherISS]; [WeatherLSSBarometer] and [WeatherLSSTempRh] are a bare
    [Meas] over [baro_num_tag] and [temprh_num_tag]. *)
Record WeatherISS := mkWeatherISS {
  iss_TransmitterID : option Z;
  iss_meas : Meas;
  iss_RXState : option Z;
  iss_TransBatteryFlag : option Z }.
Definition zero_WeatherISS : WeatherISS := mkWeatherISS None empty_meas None None.

Definition dec_WeatherISS : WeatherISS -> json -> dres WeatherISS :=
  dec_object (fun w k v =>
    if String.eqb k "txid" then
      dbind (dec_ptr_num (iss_TransmitterID w) v) (fun x =>
        DOk (mkWeatherISS x (iss_meas w) (iss_RXState w) (iss_TransBatteryFlag w)) None)
    else if String.eqb k "rx_state" then
      dbind (dec_ptr_num (iss_RXState w) v) (fun x =>
        DOk (mkWeatherISS (iss_TransmitterID w) (iss_meas w) x (iss_TransBatteryFlag w)) None)
    else if String.eqb k "trans_battery_flag" then
      dbind (dec_ptr_num (iss_TransBatteryFlag w) v) (fun x =>
        DOk (mkWeatherISS (iss_TransmitterID w) (iss_meas w) (iss_RXState w) x) None)
    else match dec_meas_member iss_num_tag iss_time_tag (iss_meas w) k v with
         | Some d => dbind d (fun m =>
             DOk (mkWeatherISS (iss_TransmitterID w) m (iss_RXState w)
                    (iss_TransBatteryFlag w)) None)
         | None => DOk w None
         end).

Definition dec_MeasOnly (ntag : NumField -> option string) : Meas -> json -> dres Meas :=
  dec_object (fun m k v =>
    match dec_meas_member ntag no_time_tag m k v with
    | Some d => d
    | None => DOk m None
    end).
Definition dec_WeatherLSSBarometer := dec_MeasOnly baro_num_tag.
Definition dec_WeatherLSSTempRh := dec_MeasOnly temprh_num_tag.

(** The dynamic type held by [EntryHTTP.Values] ([interface{}]). *)
Inductive Values :=
| VNil
| VISS (v : WeatherISS)
| VLSSBarometer (v : Meas)
| VLSSTempRh (v : Meas).

Record EntryHTTP := mkEntryHTTP {
  eh_LogicalSensorID : option Z;
  eh_DataStructureType : option Z;
  eh_Values : Values }.
Definition zero_EntryHTTP : EntryHTTP := mkEntryHTTP None None VNil.

(** [conditionHeader] *)
Record conditionHeader := mkHeader { hd_LogicalSensorID : option Z; hd_DataStructureType : option Z }.
Definition dec_conditionHeader : conditionHeader -> json -> dres conditionHeader :=
  dec_object (fun c k v =>
    if String.eqb k "lsid" then
      dbind (dec_ptr_num (hd_LogicalSensorID c) v) (fun x =>
        DOk (mkHeader x (hd_DataStructureType c)) None)
    else if String.eqb k "data_structure_type" then
      dbind (dec_ptr_num (hd_DataStructureType c) v) (fun x =>
        DOk (mkHeader (hd_LogicalSensorID c) x) None)
    else DOk c None).

(** Lifting a nested [json.Unmarshal] result into the enclosing decoder: an
    error returned by an [UnmarshalJSON] method is a hard error. *)
Definition lift_gres {A} (r : gres A) : dres A :=
  match r with ROk a => DOk a None | RErr e => DErr e | RPanic => DPanic end.

(** [EntryHTTP.UnmarshalJSON] (http.go:114-139): the method receives the
    element's raw payload whatever its JSON type. *)
Definition dec_EntryHTTP (e : EntryHTTP) (payload : json) : dres EntryHTTP :=
  match Unmarshal dec_conditionHeader (mkHeader None None) payload with
  | RErr err => DErr err
  | RPanic => DPanic
  | ROk c =>
      match hd_DataStructureType c with
      | None => DPanic (* [*c.DataStructureType] on a nil pointer *)
      | Some s =>
          if Z.eqb s RecordISS then
            lift_gres (match Unmarshal dec_WeatherISS zero_WeatherISS payload with
                       | ROk v => ROk (mkEntryHTTP (hd_LogicalSensorID c) (Some s) (VISS v))
                       | RErr x => RErr x | RPanic => RPanic end)
          else if Z.eqb s RecordLSSBarometer then
            lift_gres (match Unmarshal dec_WeatherLSSBarometer empty_meas payload with
                       | ROk v => ROk (mkEntryHTTP (hd_LogicalSensorID c) (Some s) (VLSSBarometer v))
                       | RErr x => RErr x | RPanic => RPanic end)
          else if Z.eqb s RecordLSSTempRh then
            lift_gres (match Unmarshal dec_WeatherLSSTempRh empty_meas payload with
                       | ROk v => ROk (mkEntryHTTP (hd_LogicalSensorID c) (Some s) (VLSSTempRh v))
                       | RErr x => RErr x | RPanic => RPanic end)
          else
            (* [e.Values = nil]; [json.Unmarshal(payload, nil)] returns an
               [InvalidUnmarshalError] *)
            DErr err_nil_target
      end
  end.

Record WeatherHTTP := mkWeatherHTTP {
  wh_DeviceID : string;
  wh_Timestamp : option Z;
  wh_Conditions : list EntryHTTP }.
Definition zero_WeatherHTTP : WeatherHTTP := mkWeatherHTTP "" None [].

Definition dec_WeatherHTTP : WeatherHTTP -> json -> dres WeatherHTTP :=
  dec_object (fun w k v =>
    if String.eqb k "did" then
      dbind (dec_string (wh_DeviceID w) v) (fun x =>
        DOk (mkWeatherHTTP x (wh_Timestamp w) (wh_Conditions w)) None)
    else if String.eqb k "ts" then
      dbind (dec_time (wh_Timestamp w) v) (fun x =>
        DOk (mkWeatherHTTP (wh_DeviceID w) x (wh_Conditions w)) None)
    else if String.eqb k "conditions" then
      dbind (dec_slice dec_EntryHTTP zero_EntryHTTP (wh_Conditions w) v) (fun x =>
        DOk (mkWeatherHTTP (wh_DeviceID w) (wh_Timestamp w) x) None)
    else DOk w None).

Record ConditionsHTTP := mkConditionsHTTP {
  ch_Data : option WeatherHTTP;
  ch_Error : option Error }.
Definition zero_ConditionsHTTP : ConditionsHTTP := mkConditionsHTTP None None.

Definition dec_ConditionsHTTP : ConditionsHTTP -> json -> dres ConditionsHTTP :=
  dec_object (fun c k v =>
    if String.eqb k "data" then
      dbind (dec_ptr dec_WeatherHTTP zero_WeatherHTTP (ch_Data c) v) (fun x =>
        DOk (mkConditionsHTTP x (ch_Error c)) None)
    else if String.eqb k "error" then
      dbind (dec_ptr dec_Error zero_Error (ch_Error c) v) (fun x =>
        DOk (mkConditionsHTTP (ch_Data c) x) None)
    else DOk c None).

(** [ParseHTTP] *)
Definition ParseHTTP (data : json) : gres ConditionsHTTP :=
  Unmarshal dec_ConditionsHTTP zero_ConditionsHTTP data.

(** [enable_udp.go] *)
Record ConnInfo := mkConnInfo { Port : Z; Duration : Z }.
Definition zero_ConnInfo : ConnInfo := mkConnInfo 0 0.
Definition dec_ConnInfo : ConnInfo -> json -> dres ConnInfo :=
  dec_object (fun ci k v =>
    if String.eqb k "broadcast_port" then
      dbind (dec_int (Port ci) v) (fun x => DOk (mkConnInfo x (Duration ci)) None)
    else if String.eqb k "duration" then
      dbind (dec_int (Duration ci) v) (fun x => DOk (mkConnInfo (Port ci) x) None)
    else DOk ci None).

Record BroadcastResponse := mkBroadcastResponse {
  br_ConnInfo : option ConnInfo;
  br_Error : option Error }.
Definition zero_BroadcastResponse : BroadcastResponse := mkBroadcastResponse None None.

Definition dec_BroadcastResponse : BroadcastResponse -> json -> dres BroadcastResponse :=
  dec_object (fun b k v =>
    if String.eqb k "data" then
      dbind (dec_ptr dec_ConnInfo zero_ConnInfo (br_ConnInfo b) v) (fun x =>
        DOk (mkBroadcastResponse x (br_Error b)) None)
    else if String.eqb k "error" then
      dbind (dec_ptr dec_Error zero_Error (br_Error b) v) (fun x =>
        DOk (mkBroadcastResponse (br_ConnInfo b) x) None)
    else DOk b None).

(** [ParseBroadcastResponse] *)
Definition ParseBroadcastResponse (payload : json) : gres BroadcastResponse :=
  Unmarshal dec_BroadcastResponse zero_BroadcastResponse payload.

End Parser.

(** ** [report.go] *)

(** Times are Unix seconds. The zero [time.Time] (January 1, year 1, UTC). *)
Definition zero_time : Z := -62135596800.

(** The serialized form of a Report: the members of the JSON object written
    by [json.Marshal(r)], in order. A [time.Time] is written as its RFC 3339
    string, represented here by the instant itself ([VTime]). *)
Inductive SlotVal := VNull | VStr (s : string) | VNum (z : Z) | VTime (t : Z).
Definition Serialized := list (string * SlotVal).

Definition SlotVal_eq_dec (a b : SlotVal) : {a = b} + {a <> b}.
Proof. decide equality; first [apply string_dec | apply Z.eq_dec]. Defined.
Definition Serialized_eq_dec (a b : Serialized) : {a = b} + {a <> b}.
Proof.
  apply list_eq_dec. intros [k1 v1] [k2 v2].
  destruct (string_dec k1 k2) as [->|n]; [|right; congruence].
  destruct (SlotVal_eq_dec v1 v2) as [->|n]; [left; reflexivity|right; congruence].
Defined.

(** MD5 is modelled as collision-free: the digest of a serialization is the
    serialization itself, so comparing checksums compares serialized forms.
    [lastChecksum = ""] is [None]: a hex MD5 digest is never empty. *)
Definition Digest := Serialized.
Definition md5hex (b : Serialized) : Digest := b.

Definition Digest_eqb (a b : option Digest) : bool :=
  match a, b with
  | Some x, Some y => if Serialized_eq_dec x y then true else false
  | None, None => true
  | _, _ => false
  end.

(** [Report]. The [mutex] is not represented: every operation below is one
    critical section. [notify] is the number of values buffered in the
    notification channel, whose capacity is [notify_capacity]. *)
Record Report := mkReport {
  DeviceID : string;
  Timestamp : Z;
  num : NumField -> option Z;
  tm : TimeField -> option Z;
  RXState : string;
  TransBatteryFlag : string;
  notify : nat;
  verbose : bool;
  lastChecksum : option Digest;
  lastBytes : option Serialized }.

Definition notify_capacity : nat := 1.

(** [NewReport] *)
Definition NewReport (v : bool) : Report :=
  mkReport "" zero_time (fun _ => None) (fun _ => None) "" "" 0 v None None.

Definition set_DeviceID (d : string) (r : Report) : Report :=
  mkReport d (Timestamp r) (num r) (tm r) (RXState r) (TransBatteryFlag r)
    (notify r) (verbose r) (lastChecksum r) (lastBytes r).
Definition set_Timestamp (t : Z) (r : Report) : Report :=
  mkReport (DeviceID r) t (num r) (tm r) (RXState r) (TransBatteryFlag r)
    (notify r) (verbose r) (lastChecksum r) (lastBytes r).
Definition set_meas (n : NumField -> option Z) (t : TimeField -> option Z) (r : Report) : Report :=
  mkReport (DeviceID r) (Timestamp r) n t (RXState r) (TransBatteryFlag r)
    (notify r) (verbose r) (lastChecksum r) (lastBytes r).
Definition set_health (rx batt : string) (r : Report) : Report :=
  mkReport (DeviceID r) (Timestamp r) (num r) (tm r) rx batt
    (notify r) (verbose r) (lastChecksum r) (lastBytes r).
Definition set_notify (n : nat) (r : Report) : Report :=
  mkReport (DeviceID r) (Timestamp r) (num r) (tm r) (RXState r) (TransBatteryFlag r)
    n (verbose r) (lastChecksum r) (lastBytes r).
Definition set_last (c : option Digest) (b : option Serialized) (r : Report) : Report :=
  mkReport (DeviceID r) (Timestamp r) (num r) (tm r) (RXState r) (TransBatteryFlag r)
    (notify r) (verbose r) c b.

(** The exported fields of [Report], in declaration order, and their JSON
    tags. *)
Inductive Slot := SDeviceID | STimestamp | SNum (f : NumField) | STime (t : TimeField)
                | SSignal | SBattery.

Definition report_layout : list Slot :=
  [SDeviceID; STimestamp;
   SNum Temperature; SNum Humidity; SNum Dewpoint; SNum Wetbulb; SNum HeatIndex;
   SNum WindChill; SNum THWIndex; SNum THSWIndex;
   SNum WindSpeedLast; SNum WindDirLast; SNum WindSpeedAvgLast1Min;
   SNum WindDirAvgLast1Min; SNum WindSpeedAvgLast2Min; SNum WindDirAvgLast2Min;
   SNum WindSpeedHighLast2Min; SNum WindDirAtHighLast2Min;
   SNum WindSpeedAvgLast10Min; SNum WindDirAvgLast10Min;
   SNum WindSpeedHighLast10Min; SNum WindDirAtHighLast10Min;
   SNum RainSize; SNum RainRateLast; SNum RainRateHigh; SNum RainLast15Min;
   SNum RainRateHighLast15Min; SNum RainLast60Min; SNum RainLast24Hour;
   SNum RainStorm; STime RainStormStartAt;
   SNum SolarRad; SNum UVIndex;
   SSignal; SBattery;
   SNum RainfallDaily; SNum RainfallMonthly; SNum RainfallYear; SNum RainStormLast;
   STime RainStormLastStartAt; STime RainStormLastEndAt;
   SNum BarometerSeaLevel; SNum BarometerTrend; SNum BarometerAbsolute;
   SNum TemperatureIndoor; SNum HumidityIndoor; SNum DewPointIndoor;
   SNum HeatIndexIndoor].

Definition num_key (f : NumField) : string :=
  match f with
  | Temperature => "temperature" | Humidity => "humidity" | Dewpoint => "dewpoint"
  | Wetbulb => "wetbulb" | HeatIndex => "heatindex" | WindChill => "windchill"
  | THWIndex => "thwIndex" | THSWIndex => "thswIndex"
  | WindSpeedLast => "windSpeedLast" | WindDirLast => "windDirLast"
  | WindSpeedAvgLast1Min => "windSpeedAvg1Min" | WindDirAvgLast1Min => "windDirAvg1Min"
  | WindSpeedAvgLast2Min => "windSpeedAvg2Min" | WindDirAvgLast2Min => "windDirAvg2Min"
  | WindSpeedHighLast2Min => "windGustSpeedLast2Min"
  | WindDirAtHighLast2Min => "windGustDirLast2Min"
  | WindSpeedAvgLast10Min => "windSpeedAvg10Min" | WindDirAvgLast10Min => "windDirAvg10Min"
  | WindSpeedHighLast10Min => "windGustSpeedLast10Min"
  | WindDirAtHighLast10Min => "windGustDirLast10Min"
  | RainSize => "rainSize" | RainRateLast => "rainRateLast" | RainRateHigh => "rainRateHigh"
  | RainLast15Min => "rainLast15Min" | RainRateHighLast15Min => "rainRateHighLast15Min"
  | RainLast60Min => "rainLast60Min" | RainLast24Hour => "rainLast24Hour"
  | RainStorm => "rainStorm"
  | SolarRad => "solarRad" | UVIndex => "uvIndex"
  | RainfallDaily => "rainDaily" | RainfallMonthly => "rainMonthly"
  | RainfallYear => "rainYear" | RainStormLast => "rainStormLast"
  | BarometerSeaLevel => "barometerSeaLevel" | BarometerTrend => "barometerTrend"
  | BarometerAbsolute => "barometerAbsolute"
  | TemperatureIndoor => "indoorTemperature" | HumidityIndoor => "indoorHumidity"
  | DewPointIndoor => "indoorDewpoint" | HeatIndexIndoor => "indoorHeatIndex"
  end.

Definition time_key (t : TimeField) : string :=
  match t with
  | RainStormStartAt => "rainStormStart"
  | RainStormLastStartAt => "rainStormLastStart"
  | RainStormLastEndAt => "rainStormLastEnd"
  end.

Definition slot_key (s : Slot) : string :=
  match s with
  | SDeviceID => "deviceID" | STimestamp => "timestamp"
  | SNum f => num_key f | STime t => time_key t
  | SSignal => "signal" | SBattery => "battery"
  end.

Definition opt_num (o : option Z) : SlotVal := match o with Some z => VNum z | None => VNull end.
Definition opt_time (o : option Z) : SlotVal := match o with Some t => VTime t | None => VNull end.

Definition slot_value (r : Report) (s : Slot) : SlotVal :=
  match s with
  | SDeviceID => VStr (DeviceID r)
  | STimestamp => VTime (Timestamp r)
  | SNum f => opt_num (num r f)
  | STime t => opt_time (tm r t)
  | SSignal => VStr (RXState r)
  | SBattery => VStr (TransBatteryFlag r)
  end.

(** [time.Time.MarshalJSON] fails outside the years 0 to 9999 (UTC). *)
Definition time_marshalable (t : Z) : bool :=
  (-62167219200 <=? t)%Z && (t <? 253402300800)%Z.

Definition slot_marshalable (r : Report) (s : Slot) : bool :=
  match s with
  | STimestamp => time_marshalable (Timestamp r)
  | STime t => match tm r t with Some x => time_marshalable x | None => true end
  | _ => true
  end.

(** [json.Marshal(r)] *)
Definition marshal (r : Report) : option Serialized :=
  if forallb (slot_marshalable r) report_layout
  then Some (map (fun s => (slot_key s, slot_value r s)) report_layout)
  else None.

(** [Report.checksum]: [(hex, buff, err)], [None] standing for an error. *)
Definition checksum (r : Report) : option (Digest * Serialized) :=
  match marshal r with
  | Some buff => Some (md5hex buff, buff)
  | None => None
  end.

Definition err_marshal : string := "json: error calling MarshalJSON for type time.Time".
Definition err_json_syntax : string := "unexpected end of JSON input".
Definition err_zlib : string := "zlib: invalid header".

(** The branch [updateHook] takes (the [method] argument only feeds the
    verbose log and is omitted). [HookNotRun] marks a merge that returned
    or panicked before reaching the hook. *)
Inductive HookBranch :=
| HookChecksumFailed   (* checksum error returned *)
| HookNotReady         (* RXState or TransBatteryFlag empty: return nil *)
| HookNotified         (* new content, value sent on notify *)
| HookPressure         (* new content, notify already full *)
| HookNoNewData        (* checksum unchanged *)
| HookNotRun.

(** [Report.updateHook] (report.go:317-348). *)
Definition updateHook (timestamp : Z) (r : Report) : Report * GoRes * HookBranch :=
  match checksum r with
  | None => (r, GoErr err_marshal, HookChecksumFailed)
  | Some (newChecksum, _) =>
      if String.eqb (RXState r) "" || String.eqb (TransBatteryFlag r) "" then
        (r, GoOk, HookNotReady)
      else if negb (Digest_eqb (Some newChecksum) (lastChecksum r)) then
        let r1 := set_Timestamp timestamp r in
        (* [r.lastChecksum, r.lastBytes, _ = r.checksum()]: ["", nil] on error *)
        let r2 := match checksum r1 with
                  | Some (c, b) => set_last (Some c) (Some b) r1
                  | None => set_last None None r1
                  end in
        (* [select { case r.notify <- true: ... default: ... }] *)
        if Nat.ltb (notify r2) notify_capacity
        then (set_notify (S (notify r2)) r2, GoOk, HookNotified)
        else (r2, GoOk, HookPressure)
      else (r, GoOk, HookNoNewData)
  end.

(** Copying a record's measurements into the Report: every [*float64] field
    the record has is assigned (nil included); a [*Time] field only when it
    is non-nil ([if v.X != nil { t := v.X.Time(); r.X = &t }]). *)
Definition apply_meas (ntag : NumField -> option string) (ttag : TimeField -> option string)
    (m : Meas) (r : Report) : Report :=
  set_meas
    (fun f => match ntag f with Some _ => m_num m f | None => num r f end)
    (fun t => match ttag t, m_tm m t with Some _, Some x => Some x | _, _ => tm r t end)
    r.

(** [Report.processISS] *)
Definition processISS (v : Parser.WeatherISS) (r : Report) : Report :=
  let r1 := apply_meas Parser.iss_num_tag Parser.iss_time_tag (Parser.iss_meas v) r in
  let rx := match Parser.iss_RXState v with
            | Some s =>
                if Z.eqb s Parser.SignalSynced then "Synced"
                else if Z.eqb s Parser.SignalRescan then "Rescan"
                else if Z.eqb s Parser.SignalLost then "Lost"
                else RXState r1
            | None => RXState r1
            end in
  let batt := match Parser.iss_TransBatteryFlag v with
              | Some s =>
                  if Z.eqb s Parser.BatteryNominal then "Nominal"
                  else if Z.eqb s Parser.BatteryWarning then "Warning"
                  else TransBatteryFlag r1
              | None => TransBatteryFlag r1
              end in
  set_health rx batt r1.

(** [Report.processLSSBarometer] and [Report.processLSSTempRh] *)
Definition processLSSBarometer (v : Meas) (r : Report) : Report :=
  apply_meas Parser.baro_num_tag Parser.no_time_tag v r.
Definition processLSSTempRh (v : Meas) (r : Report) : Report :=
  apply_meas Parser.temprh_num_tag Parser.no_time_tag v r.

(** The loop of [UpdateHTTP] over [new.Data.Conditions]; the boolean is
    [true] when it panics ([*c.DataStructureType] on nil, or a failed type
    assertion on [c.Values]), with the Report as left at that point. *)
Fixpoint process_conditions (cs : list Parser.EntryHTTP) (r : Report) : Report * bool :=
  match cs with
  | [] => (r, false)
  | c :: cs' =>
      match Parser.eh_DataStructureType c with
      | None => (r, true)
      | Some s =>
          if Z.eqb s Parser.RecordISS then
            match Parser.eh_Values c with
            | Parser.VISS v => process_conditions cs' (processISS v r)
            | _ => (r, true)
            end
          else if Z.eqb s Parser.RecordLSSBarometer then
            match Parser.eh_Values c with
            | Parser.VLSSBarometer v => process_conditions cs' (processLSSBarometer v r)
            | _ => (r, true)
            end
          else if Z.eqb s Parser.RecordLSSTempRh then
            match Parser.eh_Values c with
            | Parser.VLSSTempRh v => process_conditions cs' (processLSSTempRh v r)
            | _ => (r, true)
            end
          else process_conditions cs' r
      end
  end.

(** [Report.UpdateHTTP] (report.go:103-133). *)
Definition UpdateHTTP (new : Parser.ConditionsHTTP) (r : Report) : Report * GoRes * HookBranch :=
  match Parser.ch_Error new with
  | Some e => (r, GoErr (Parser.Message e), HookNotRun)
  | None =>
      match Parser.ch_Data new with
      | None => (r, GoPanic, HookNotRun) (* [new.Data.DeviceID] on nil *)
      | Some d =>
          let r1 := set_DeviceID (Parser.wh_DeviceID d) r in
          let (r2, panicked) := process_conditions (Parser.wh_Conditions d) r1 in
          if panicked then (r2, GoPanic, HookNotRun)
          else match Parser.wh_Timestamp d with
               | None => (r2, GoPanic, HookNotRun) (* [new.Data.Timestamp.Time()] on nil *)
               | Some ts => updateHook ts r2
               end
      end
  end.

(** One iteration of the loop of [UpdateUDP]. *)
Definition udp_entry (c : Parser.EntryUDP) (r : Report) : Report :=
  apply_meas Parser.udp_num_tag Parser.udp_time_tag (Parser.eu_meas c) r.

(** [Report.UpdateUDP] (report.go:137-168). *)
Definition UpdateUDP (new : Parser.ConditionsUDP) (r : Report) : Report * GoRes * HookBranch :=
  let r1 := set_DeviceID (Parser.cu_DeviceID new) r in
  let r2 := fold_left (fun acc c => udp_entry c acc) (Parser.cu_Conditions new) r1 in
  match Parser.cu_Timestamp new with
  | None => (r2, GoPanic, HookNotRun) (* [new.Timestamp.Time()] on nil *)
  | Some ts => updateHook ts r2
  end.

(** [json.Unmarshal] of a serialized Report into a [Report]: members are
    matched to fields by tag, unknown members are ignored, and a member of
    the wrong JSON type makes the call fail. *)
Definition unmarshal_slot (r : Report) (s : Slot) (v : SlotVal) : option Report :=
  match s, v with
  | SDeviceID, VStr x => Some (set_DeviceID x r)
  | STimestamp, VTime t => Some (set_Timestamp t r)
  | SNum f, VNum z => Some (set_meas (upd_num (num r) f (Some z)) (tm r) r)
  | SNum f, VNull => Some (set_meas (upd_num (num r) f None) (tm r) r)
  | STime t, VTime x => Some (set_meas (num r) (upd_tm (tm r) t (Some x)) r)
  | STime t, VNull => Some (set_meas (num r) (upd_tm (tm r) t None) r)
  | SSignal, VStr x => Some (set_health x (TransBatteryFlag r) r)
  | SBattery, VStr x => Some (set_health (RXState r) x r)
  | (SDeviceID | STimestamp | SSignal | SBattery), VNull => Some r
  | _, _ => None
  end.

Definition unmarshal_report (p : Serialized) (init : Report) : option Report :=
  fold_left (fun acc kv =>
      match acc with
      | None => None
      | Some r =>
          match find (fun s => String.eqb (slot_key s) (fst kv)) report_layout with
          | None => Some r
          | Some s => unmarshal_slot r s (snd kv)
          end
      end) p (Some init).

(** A byte payload handed to [UpdateJSON]: a JSON object, or bytes that are
    not a JSON document (the empty payload among them). *)
Inductive Payload := PJson (s : Serialized) | PInvalid.

(** [Report.UpdateJSON] (report.go:173-242); [now] is [time.Now()]. *)
Definition UpdateJSON (now : Z) (payload : Payload) (r : Report) : Report * GoRes * HookBranch :=
  match payload with
  | PInvalid => (r, GoErr err_json_syntax, HookNotRun)
  | PJson p =>
      (* [var n Report] *)
      match unmarshal_report p (NewReport false) with
      | None => (r, GoErr err_type, HookNotRun)
      | Some n =>
          let r1 := set_health (RXState n) (TransBatteryFlag n)
                      (set_meas (num n) (tm n) (set_DeviceID (DeviceID n) r)) in
          updateHook now r1
      end
  end.

(** [Report.Copy] (report.go:246-268). The copy gets the fresh notification
    channel and mutex allocated by [NewReport]. *)
Definition Copy (r : Report) : gres Report :=
  match marshal r with
  | None => RErr err_marshal
  | Some buff =>
      match unmarshal_report buff (NewReport (verbose r)) with
      | None => RErr err_type
      | Some report => ROk (set_last (lastChecksum r) (lastBytes r) report)
      end
  end.

(** [Report.JSON] *)
Definition Report_JSON (r : Report) : option Serialized := lastBytes r.

(** A zlib stream: the compression of a payload, or corrupt bytes. *)
Inductive ZlibStream := Zlib (p : Payload) | ZCorrupt.

(** [Report.Encode]: the compressed [lastBytes] (nil compresses to the
    stream of the empty payload). *)
Definition Encode (r : Report) : ZlibStream :=
  Zlib (match lastBytes r with Some b => PJson b | None => PInvalid end).

(** [Report.Decode] *)
Definition Decode (now : Z) (payload : ZlibStream) (r : Report) : Report * GoRes * HookBranch :=
  match payload with
  | ZCorrupt => (r, GoErr err_zlib, HookNotRun)
  | Zlib p => UpdateJSON now p r
  end.

(** ** [client.go] and [engine.go] *)

(** [Client]; the lease times are in nanoseconds. The [unit], [verbose] and
    [wg] fields are not involved in the properties below. *)
Record Client := mkClient {
  report : Report;
  udpPort : Z;
  udpLastReported : Z }.

Definition zero_time_ns : Z := zero_time * 1000000000.

(** [Managed]: the state of the client it returns. *)
Definition Managed (v : bool) : Client := mkClient (NewReport v) 0 zero_time_ns.

(** [Client.Report] *)
Definition Client_Report (c : Client) : gres Report := Copy (report c).

Definition udpDeadline : Z := 15 * 1000000000.

(** [Client.fetchBroadcastResponse] given the outcome of the HTTP exchange:
    [None] when the request or reading the body fails, else the body. *)
Definition fetchBroadcastResponse (transport : option json) : gres Parser.BroadcastResponse :=
  match transport with
  | None => RErr "context deadline exceeded"
  | Some body =>
      match Parser.ParseBroadcastResponse body with
      | ROk b =>
          match Parser.br_Error b with
          | Some e => RErr (Parser.Message e)
          | None => ROk b
          end
      | RErr e => RErr e
      | RPanic => RPanic
      end
  end.

(** Observable effects of a watchdog iteration: a lease request sent to
    [/v1/real_time], and a call of the [resolved] cancel function. *)
Inductive WatchdogEvent := LeaseRequest | ResolvedCalled.

Definition WatchdogEvent_eq_dec (a b : WatchdogEvent) : {a = b} + {a <> b}.
Proof. decide equality. Defined.

(** One iteration of the loop of [Client.udpWatchdog] (engine.go:213-233) at
    time [now]; [transport] is the answer to the lease request, if one is
    sent. [time.Now().Sub] saturates far outside the deadline and so does
    not change the comparison. *)
Definition udpWatchdog_tick (now : Z) (transport : option json) (c : Client)
    : Client * list WatchdogEvent * GoRes :=
  let delta := (now - udpLastReported c)%Z in
  if (udpDeadline <? delta)%Z then
    match fetchBroadcastResponse transport with
    | RErr _ => (c, [LeaseRequest], GoOk)
    | RPanic => (c, [LeaseRequest], GoPanic)
    | ROk broadcast =>
        match Parser.br_ConnInfo broadcast with
        | None => (c, [LeaseRequest], GoPanic) (* [broadcast.ConnInfo.Port] on nil *)
        | Some ci =>
            let previousPort := udpPort c in
            let c' := mkClient (report c) (Parser.Port ci) (udpLastReported c) in
            (c', LeaseRequest :: (if Z.eqb previousPort 0 then [ResolvedCalled] else []), GoOk)
        end
    end
  else (c, [], GoOk).

(** ** Compositions used in the statements *)

(** A sequence of [UpdateUDP] calls, as the UDP event loop makes them; a
    panic ends the program, and the sequence with it. *)
Fixpoint UpdateUDP_seq (cs : list Parser.ConditionsUDP) (r : Report)
    : Report * list (GoRes * HookBranch) :=
  match cs with
  | [] => (r, [])
  | c :: cs' =>
      match UpdateUDP c r with
      | (r1, GoPanic, b) => (r1, [(GoPanic, b)])
      | (r1, res, b) =>
          let (r2, outs) := UpdateUDP_seq cs' r1 in (r2, (res, b) :: outs)
      end
  end.

(** The three merge entry points. *)
Inductive Merge :=
| MergeHTTP (c : Parser.ConditionsHTTP)
| MergeUDP (c : Parser.ConditionsUDP)
| MergeJSON (now : Z) (p : Payload).

Definition run_merge (m : Merge) (r : Report) : Report * GoRes * HookBranch :=
  match m with
  | MergeHTTP c => UpdateHTTP c r
  | MergeUDP c => UpdateUDP c r
  | MergeJSON now p => UpdateJSON now p r
  end.

(** The event time and the Report a merge hands to [updateHook]; [None] when
    it returns or panics before. *)
Definition merge_candidate (m : Merge) (r : Report) : option (Z * Report) :=
  match m with
  | MergeHTTP c =>
      match Parser.ch_Error c, Parser.ch_Data c with
      | None, Some d =>
          let (r2, panicked) :=
            process_conditions (Parser.wh_Conditions d) (set_DeviceID (Parser.wh_DeviceID d) r) in
          if panicked then None
          else match Parser.wh_Timestamp d with Some ts => Some (ts, r2) | None => None end
      | _, _ => None
      end
  | MergeUDP c =>
      match Parser.cu_Timestamp c with
      | Some ts =>
          Some (ts, fold_left (fun acc e => udp_entry e acc) (Parser.cu_Conditions c)
                      (set_DeviceID (Parser.cu_DeviceID c) r))
      | None => None
      end
  | MergeJSON now (PJson p) =>
      match unmarshal_report p (NewReport false) with
      | Some n => Some (now, set_health (RXState n) (TransBatteryFlag n)
                              (set_meas (num n) (tm n) (set_DeviceID (DeviceID n) r)))
      | None => None
      end
  | MergeJSON _ PInvalid => None
  end.

(** A merge is content-changing when the Report it hands to [updateHook] is
    ready (receiver-health fields set) and its checksum differs from the
    stored one. *)
Definition content_changing (m : Merge) (r : Report) : Prop :=
  match merge_candidate m r with
  | Some (_, r') =>
      RXState r' <> "" /\ TransBatteryFlag r' <> "" /\
      exists ck b, checksum r' = Some (ck, b) /\ Some ck <> lastChecksum r'
  | None => False
  end.

(** Reports the program can hold: fresh ones, results of merges, copies. *)
Inductive reachable : Report -> Prop :=
| reachable_new v : reachable (NewReport v)
| reachable_merge m r : reachable r -> reachable (fst (fst (run_merge m r)))
| reachable_copy r r' : reachable r -> Copy r = ROk r' -> reachable r'.

(** Proof device: the measurement and receiver-health assignments made by a
    [process*] function, as a patch ([Some v]: the field is set to [v]). *)
Record Patch := mkPatch {
  p_num : NumField -> option (option Z);
  p_tm : TimeField -> option (option Z);
  p_rx : option string;
  p_batt : option string }.

Definition apply_patch (p : Patch) (r : Report) : Report :=
  mkReport (DeviceID r) (Timestamp r)
    (fun f => match p_num p f with Some v => v | None => num r f end)
    (fun t => match p_tm p t with Some v => v | None => tm r t end)
    (match p_rx p with Some x => x | None => RXState r end)
    (match p_batt p with Some x => x | None => TransBatteryFlag r end)
    (notify r) (verbose r) (lastChecksum r) (lastBytes r).

(** [compose_patch p q]: [q], then [p]. *)
Definition compose_patch (p q : Patch) : Patch :=
  mkPatch
    (fun f => match p_num p f with Some v => Some v | None => p_num q f end)
    (fun t => match p_tm p t with Some v => Some v | None => p_tm q t end)
    (match p_rx p with Some x => Some x | None => p_rx q end)
    (match p_batt p with Some x => Some x | None => p_batt q end).

Definition id_patch : Patch := mkPatch (fun _ => None) (fun _ => None) None None.

Definition meas_patch (ntag : NumField -> option string) (ttag : TimeField -> option string)
    (m : Meas) : Patch :=
  mkPatch
    (fun f => match ntag f with Some _ => Some (m_num m f) | None => None end)
    (fun t => match ttag t, m_tm m t with Some _, Some x => Some (Some x) | _, _ => None end)
    None None.

Definition iss_patch (v : Parser.WeatherISS) : Patch :=
  let p := meas_patch Parser.iss_num_tag Parser.iss_time_tag (Parser.iss_meas v) in
  mkPatch (p_num p) (p_tm p)
    (match Parser.iss_RXState v with
     | Some s =>
         if Z.eqb s Parser.SignalSynced then Some "Synced"
         else if Z.eqb s Parser.SignalRescan then Some "Rescan"
         else if Z.eqb s Parser.SignalLost then Some "Lost"
         else None
     | None => None
     end)
    (match Parser.iss_TransBatteryFlag v with
     | Some s =>
         if Z.eqb s Parser.BatteryNominal then Some "Nominal"
         else if Z.eqb s Parser.BatteryWarning then Some "Warning"
         else None
     | None => None
     end).

(** Proof device: what [json.Unmarshal] does with the member of slot [s]
    of the serialization of [r0]: the field of [s] gets [r0]'s value. *)
Definition copy_slot (r0 : Report) (s : Slot) (r : Report) : Report :=
  match s with
  | SDeviceID => set_DeviceID (DeviceID r0) r
  | STimestamp => set_Timestamp (Timestamp r0) r
  | SNum f => set_meas (upd_num (num r) f (num r0 f)) (tm r) r
  | STime t => set_meas (num r) (upd_tm (tm r) t (tm r0 t)) r
  | SSignal => set_health (RXState r0) (TransBatteryFlag r) r
  | SBattery => set_health (RXState r) (TransBatteryFlag r0) r
  end.

(** The data fields of [r0] with the bookkeeping fields of [init]. *)
Definition with_data (r0 init : Report) : Report :=
  mkReport (DeviceID r0) (Timestamp r0) (num r0) (tm r0) (RXState r0) (TransBatteryFlag r0)
    (notify init) (verbose init) (lastChecksum init) (lastBytes init).

(** The fields a merge leaves to [updateHook]: the timestamp and the
    bookkeeping fields. *)
Definition book (r : Report) : Z * nat * bool * option Digest * option Serialized :=
  (Timestamp r, notify r, verbose r, lastChecksum r, lastBytes r).

(** Every serialization a Report stores is one of a ready Report. *)
Definition stored_ok (r : Report) : Prop :=
  forall b, lastBytes r = Some b ->
  exists r0, marshal r0 = Some b /\ RXState r0 <> "" /\ TransBatteryFlag r0 <> "".

(** ** Sample payloads *)

(** A [/v1/current_conditions] answer: an ISS record (synced, battery
    nominal, 72 °F) and a barometer record. *)
Definition http_payload_iss_baro (ts : Z) : json :=
  JObj [("data", JObj [("did", JStr "X"); ("ts", JNum ts);
    ("conditions", JArr [
       JObj [("lsid", JNum 1); ("data_structure_type", JNum 1); ("temp", JNum 72);
             ("rx_state", JNum 0); ("trans_battery_flag", JNum 0)];
       JObj [("lsid", JNum 2); ("data_structure_type", JNum 3);
             ("bar_sea_level", JNum 30)]])]);
        ("error", JNull)].

(** The same batch with a record of data structure type 2 in front. *)
Definition http_payload_unknown_type : json :=
  JObj [("data", JObj [("did", JStr "X"); ("ts", JNum 1600000000);
    ("conditions", JArr [
       JObj [("lsid", JNum 5); ("data_structure_type", JNum 2)];
       JObj [("lsid", JNum 1); ("data_structure_type", JNum 1); ("temp", JNum 72);
             ("rx_state", JNum 0); ("trans_battery_flag", JNum 0)];
       JObj [("lsid", JNum 2); ("data_structure_type", JNum 3);
             ("bar_sea_level", JNum 30)]])]);
        ("error", JNull)].

(** A UDP broadcast; [rain_storm_start_at] is [start]. *)
Definition udp_payload (ts start : Z) : json :=
  JObj [("did", JStr "X"); ("ts", JNum ts);
        ("conditions", JArr [
           JObj [("lsid", JNum 1); ("data_structure_type", JNum 1);
                 ("wind_speed_last", JNum 5); ("rain_storm_start_at", JNum start)]])].

Definition decoded_http (j : json) : Parser.ConditionsHTTP :=
  match Parser.ParseHTTP j with ROk c => c | _ => Parser.zero_ConditionsHTTP end.
Definition decoded_udp (j : json) : Parser.ConditionsUDP :=
  match Parser.ParseUDP j with ROk c => c | _ => Parser.zero_ConditionsUDP end.

(** ** The event loops around the merges ([client.go], [engine.go]) *)

(** [Client.fetchConditionsHTTP] given the outcome of the HTTP exchange:
    [None] when the request or reading the body fails, else the body. *)
Definition fetchConditionsHTTP (transport : option json) : gres Parser.ConditionsHTTP :=
  match transport with
  | None => RErr "context deadline exceeded"
  | Some body =>
      match Parser.ParseHTTP body with
      | ROk conditions =>
          match Parser.ch_Error conditions with
          | Some e => RErr (Parser.Message e)
          | None => ROk conditions
          end
      | RErr e => RErr e
      | RPanic => RPanic
      end
  end.

(** One iteration of the loop of [Client.httpEventLoop] (engine.go:79-101)
    up to the wait: a fetch error and an [UpdateHTTP] error are both only
    logged; the [GoRes] is what was logged ([GoPanic]: the program ends). *)
Definition httpEventLoop_step (transport : option json) (r : Report) : Report * GoRes :=
  match fetchConditionsHTTP transport with
  | RErr e => (r, GoErr e)
  | RPanic => (r, GoPanic)
  | ROk conditions =>
      match UpdateHTTP conditions r with
      | (r', res, _) => (r', res)
      end
  end.

(** What [conn.ReadFrom] yields in the inner loop of [Client.udpEventLoop]:
    a datagram holding a JSON document, a datagram that is not one, or a
    read error (the read deadline [udpDeadline] passed, or the socket was
    closed). *)
Inductive UdpRead := UdpDatagram (payload : json) | UdpGarbage | UdpReadError.

(** How the inner loop goes on: next read, back to the outer loop (the
    connection is closed and reopened), or the program ends in a panic. *)
Inductive UdpNext := UdpContinue | UdpReprovision | UdpPanicked.

(** One iteration of the inner loop of [Client.udpEventLoop]
    (engine.go:156-189) at time [now] (nanoseconds, as [time.Now()]). The
    Report is shared with the client: [UpdateUDP] changes it also when it
    returns an error. *)
Definition udpEventLoop_step (now : Z) (rd : UdpRead) (c : Client) : Client * UdpNext :=
  match rd with
  | UdpReadError => (c, UdpReprovision)
  | UdpGarbage => (c, UdpContinue)
  | UdpDatagram payload =>
      match Parser.ParseUDP payload with
      | RErr _ => (c, UdpContinue)
      | RPanic => (c, UdpPanicked)
      | ROk conditions =>
          match UpdateUDP conditions (report c) with
          | (r', GoOk, _) => (mkClient r' (udpPort c) now, UdpContinue)
          | (r', GoErr _, _) => (mkClient r' (udpPort c) (udpLastReported c), UdpContinue)
          | (r', GoPanic, _) => (mkClient r' (udpPort c) (udpLastReported c), UdpPanicked)
          end
      end
  end.

(** ** Locating the unit: [Unmanaged], [wllUnit.GetURL], [mDNSLoop] *)

(** [fmt]'s [%d] verb for a Go [int]: [digits_rev] prepends the decimal
    digits of [n >= 0] to [acc] (an [int] has at most 19 digits). *)
Fixpoint digits_rev (fuel : nat) (n : Z) (acc : string) : string :=
  match fuel with
  | O => acc
  | S fuel' =>
      let acc' := String (Ascii.ascii_of_nat (48 + Z.to_nat (n mod 10))) acc in
      if (n <? 10)%Z then acc' else digits_rev fuel' (n / 10) acc'
  end.
Definition fmt_d (n : Z) : string :=
  if (n <? 0)%Z then "-" ++ digits_rev 20 (- n) "" else digits_rev 20 n "".

(** [strings.Contains] *)
Fixpoint Contains (s substr : string) : bool :=
  prefix substr s ||
  match s with
  | EmptyString => false
  | String _ s' => Contains s' substr
  end.

Definition mDNSInstance : string := "_weatherlinklive".
Definition clientDefaultPort : Z := 80.
Definition errInvalidHostname : string := "davisweather: must supply valid IP address or hostname".
Definition routeConditions : string := "/v1/current_conditions".
Definition routeBroadcastResponse : string := "/v1/real_time".

Section Net.

(** The address type [net.IP], with [net.ParseIP] ([None]: nil), the test
    [ip.To4() != nil] and [IP.String]. *)
Variable IP : Type.
Variable ParseIP : string -> option IP.
Variable is_ipv4 : IP -> bool.
Variable ip_string : IP -> string.

(** [zeroconf.ServiceEntry] with the fields the client reads
    ([ServiceRecord.Instance], [HostName], [Port], [TTL], [AddrIPv4],
    [AddrIPv6]); [wllUnit] is the same struct type. *)
Record ServiceEntry := mkServiceEntry {
  Instance : string;
  HostName : string;
  Port : Z;
  TTL : Z;
  AddrIPv4 : list IP;
  AddrIPv6 : list IP }.
Definition wllUnit := ServiceEntry.

(** [wllUnit.GetURL] *)
Definition GetURL (u : wllUnit) : string :=
  match AddrIPv6 u with
  | ip :: _ => "http://[" ++ ip_string ip ++ "]:" ++ fmt_d (Port u)
  | [] =>
      match AddrIPv4 u with
      | ip :: _ => "http://" ++ ip_string ip ++ ":" ++ fmt_d (Port u)
      | [] =>
          if String.eqb (HostName u) "" then ""
          else "http://" ++ HostName u ++ ":" ++ fmt_d (Port u)
      end
  end.

(** The URLs requested by [fetchConditionsHTTP] and by
    [fetchBroadcastResponse] ([udpDuration.Seconds()] is 14400, printed by
    [%.0f]). *)
Definition conditionsURL (u : wllUnit) : string := GetURL u ++ routeConditions.
Definition broadcastURL (u : wllUnit) : string :=
  GetURL u ++ routeBroadcastResponse ++ "?duration=14400".

(** [Unmanaged]: the client (its state as for [Managed])
    and the unit it holds. *)
Definition Unmanaged (v : bool) (hostname : string) (port : Z) : gres (Client * wllUnit) :=
  if String.eqb hostname "" then RErr errInvalidHostname
  else
    let port := if (port <=? 0)%Z then clientDefaultPort else port in
    let u :=
      match ParseIP hostname with
      | None => mkServiceEntry "" hostname port 0 [] []
      | Some ip =>
          if is_ipv4 ip then mkServiceEntry "" hostname port 0 [ip] []
          else mkServiceEntry "" ("[" ++ hostname ++ "]") port 0 [] [ip]
      end in
    ROk (mkClient (NewReport v) 0 zero_time_ns, u).

(** The cancel functions [mDNSLoop] calls. *)
Inductive DiscoveryCall := CallDone | CallResolved.

(** [mDNSLoop] over the responders received before
    the channel closes, from the client's unit and the package variable
    [mDNSInterval] (nanoseconds): their new values and the calls made. *)
Fixpoint mDNSLoop (unit : option wllUnit) (interval : Z) (responders : list ServiceEntry)
    : option wllUnit * Z * list DiscoveryCall :=
  match responders with
  | [] => (unit, interval, [])
  | r :: rs =>
      if Contains (Instance r) mDNSInstance
      then (Some r, TTL r * 1000000000, [CallDone; CallResolved])%Z
      else mDNSLoop unit interval rs
  end.

End Net.

(** ** Proof devices for the properties of this part *)

(** The time a merge hands to [updateHook]: [ts] of the HTTP data, [ts] of
    the broadcast, [time.Now()] for [UpdateJSON]. *)
Definition merge_time (m : Merge) : option Z :=
  match m with
  | MergeHTTP c =>
      match Parser.ch_Data c with Some d => Parser.wh_Timestamp d | None => None end
  | MergeUDP c => Parser.cu_Timestamp c
  | MergeJSON now _ => Some now
  end.

(** An [EntryHTTP] whose [Values] holds the struct its [DataStructureType]
    names, so that the type switch of [UpdateHTTP] takes its assertion. *)
Definition entry_typed (e : Parser.EntryHTTP) : Prop :=
  match Parser.eh_DataStructureType e, Parser.eh_Values e with
  | Some s, Parser.VISS _ => s = Parser.RecordISS
  | Some s, Parser.VLSSBarometer _ => s = Parser.RecordLSSBarometer
  | Some s, Parser.VLSSTempRh _ => s = Parser.RecordLSSTempRh
  | _, _ => False
  end.

Arguments mkServiceEntry {IP}.
Arguments Instance {IP}. Arguments HostName {IP}. Arguments Port {IP}.
Arguments TTL {IP}. Arguments AddrIPv4 {IP}. Arguments AddrIPv6 {IP}.
Arguments GetURL {IP}. Arguments conditionsURL {IP}. Arguments broadcastURL {IP}.
Arguments Unmanaged {IP}. Arguments mDNSLoop {IP}.

(** The Report [UpdateUDP] hands to [updateHook]: [r.DeviceID =
    new.DeviceID], then the loop over [new.Conditions] (report.go:142-165). *)
Definition udp_merge (new : Parser.ConditionsUDP) (r : Report) : Report :=
  fold_left (fun acc c => udp_entry c acc) (Parser.cu_Conditions new)
    (set_DeviceID (Parser.cu_DeviceID new) r).

(** The merged Reports of a sequence of [UpdateUDP] calls, one per call,
    each call merging into the Report the previous one produced. *)
Fixpoint udp_merges (cs : list Parser.ConditionsUDP) (r : Report) : list Report :=
  match cs with
  | [] => []
  | c :: cs' => let r1 := udp_merge c r in r1 :: udp_merges cs' r1
  end.

(** Every time the Report holds ([Timestamp] and the non-nil time fields)
    lies in the years 0 to 9999. *)
Definition times_marshalable (r : Report) : bool :=
  time_marshalable (Timestamp r) &&
  forallb (fun t => match tm r t with Some x => time_marshalable x | None => true end)
    all_time_fields.

(** ** General lemmas *)

Lemma Digest_eqb_refl (d : option Digest) : Digest_eqb d d = true.
Proof.
  destruct d as [x|]; simpl; [|reflexivity].
  destruct (Serialized_eq_dec x x); congruence.
Qed.

Lemma Digest_eqb_true (a b : option Digest) : Digest_eqb a b = true -> a = b.
Proof.
  destruct a as [x|], b as [y|]; simpl; try congruence.
  destruct (Serialized_eq_dec x y); congruence.
Qed.

(** [updateHook] never touches the data fields. *)
Lemma updateHook_data (ts : Z) (r : Report) :
  let r' := fst (fst (updateHook ts r)) in
  DeviceID r' = DeviceID r /\ num r' = num r /\ tm r' = tm r /\
  RXState r' = RXState r /\ TransBatteryFlag r' = TransBatteryFlag r /\
  verbose r' = verbose r.
Proof.
  unfold updateHook. destruct (checksum r) as [[ck b]|]; [|simpl; tauto].
  destruct (_ || _); [simpl; tauto|].
  destruct (negb _); [|simpl; tauto].
  destruct (checksum (set_Timestamp ts r)) as [[c' b']|];
    destruct (Nat.ltb _ _); simpl; tauto.
Qed.

(** On a Report that is not ready, [updateHook] changes nothing. *)
Lemma updateHook_not_ready (ts : Z) (r : Report) :
  RXState r = "" \/ TransBatteryFlag r = "" ->
  updateHook ts r = (r, GoOk, HookNotReady) \/
  (updateHook ts r = (r, GoErr err_marshal, HookChecksumFailed) /\ checksum r = None).
Proof.
  intros H. unfold updateHook.
  destruct (checksum r) as [[ck b]|]; [left|right; split; reflexivity].
  replace (String.eqb (RXState r) "" || String.eqb (TransBatteryFlag r) "") with true;
    [reflexivity|].
  destruct H as [H|H]; rewrite H; [reflexivity|symmetry; apply orb_true_r].
Qed.

(** [UpdateUDP]'s loop assigns only the fields [EntryUDP] has. *)
Lemma udp_fold_frame (cs : list Parser.EntryUDP) (r : Report) :
  let r' := fold_left (fun acc c => udp_entry c acc) cs r in
  DeviceID r' = DeviceID r /\ Timestamp r' = Timestamp r /\
  RXState r' = RXState r /\ TransBatteryFlag r' = TransBatteryFlag r /\
  notify r' = notify r /\ lastChecksum r' = lastChecksum r /\
  lastBytes r' = lastBytes r /\ verbose r' = verbose r /\
  (forall f, Parser.udp_num_tag f = None -> num r' f = num r f) /\
  (forall t, Parser.udp_time_tag t = None -> tm r' t = tm r t).
Proof.
  revert r; induction cs as [|c cs IH]; intros r; simpl; [tauto|].
  destruct (IH (udp_entry c r)) as (H1 & H2 & H3 & H4 & H5 & H6 & H7 & H8 & H9 & H10).
  repeat split; try assumption.
  - intros f Hf. rewrite (H9 f Hf). simpl. rewrite Hf. reflexivity.
  - intros t Ht. rewrite (H10 t Ht). simpl. rewrite Ht. reflexivity.
Qed.

Lemma updateHook_no_panic (ts : Z) (r : Report) : snd (fst (updateHook ts r)) <> GoPanic.
Proof.
  unfold updateHook. destruct (checksum r) as [[ck b]|]; [|discriminate].
  destruct (_ || _); [discriminate|].
  destruct (negb _); [|discriminate].
  destruct (checksum (set_Timestamp ts r)) as [[c' b']|];
    destruct (Nat.ltb _ _); discriminate.
Qed.

(** One [UpdateUDP] call on a Report that is not ready. *)
Lemma udp_step_gated (c : Parser.ConditionsUDP) (r : Report) :
  RXState r = "" \/ TransBatteryFlag r = "" ->
  let '(r', res, b) := UpdateUDP c r in
  Timestamp r' = Timestamp r /\ lastChecksum r' = lastChecksum r /\
  lastBytes r' = lastBytes r /\ notify r' = notify r /\
  RXState r' = RXState r /\ TransBatteryFlag r' = TransBatteryFlag r /\
  ((res, b) = (GoOk, HookNotReady) \/ (res, b) = (GoErr err_marshal, HookChecksumFailed) \/
   (res, b) = (GoPanic, HookNotRun)).
Proof.
  intros Hr. unfold UpdateUDP.
  destruct (udp_fold_frame (Parser.cu_Conditions c) (set_DeviceID (Parser.cu_DeviceID c) r))
    as (H1 & H2 & H3 & H4 & H5 & H6 & H7 & _).
  set (r2 := fold_left _ _ _) in *. simpl in *.
  destruct (Parser.cu_Timestamp c) as [ts|].
  - assert (Hr2 : RXState r2 = "" \/ TransBatteryFlag r2 = "") by (rewrite H3, H4; exact Hr).
    destruct (updateHook_not_ready ts r2 Hr2) as [E|[E _]]; rewrite E;
      repeat split; auto.
  - repeat split; auto.
Qed.

Lemma apply_meas_patch ntag ttag m r :
  apply_meas ntag ttag m r = apply_patch (meas_patch ntag ttag m) r.
Proof.
  unfold apply_meas, apply_patch, meas_patch, set_meas; simpl. f_equal.
  - apply functional_extensionality; intros f. destruct (ntag f); reflexivity.
  - apply functional_extensionality; intros t.
    destruct (ttag t), (m_tm m t); reflexivity.
Qed.

Lemma processISS_patch v r : processISS v r = apply_patch (iss_patch v) r.
Proof.
  unfold processISS. rewrite apply_meas_patch. unfold iss_patch, apply_patch, set_health; simpl.
  f_equal.
  - destruct (Parser.iss_RXState v) as [s|]; [|reflexivity].
    destruct (Z.eqb s _); [reflexivity|]. destruct (Z.eqb s _); [reflexivity|].
    destruct (Z.eqb s _); reflexivity.
  - destruct (Parser.iss_TransBatteryFlag v) as [s|]; [|reflexivity].
    destruct (Z.eqb s _); [reflexivity|]. destruct (Z.eqb s _); reflexivity.
Qed.

Lemma apply_compose_patch p q r :
  apply_patch p (apply_patch q r) = apply_patch (compose_patch p q) r.
Proof.
  unfold apply_patch, compose_patch; simpl. f_equal.
  - apply functional_extensionality; intros f. destruct (p_num p f); reflexivity.
  - apply functional_extensionality; intros t. destruct (p_tm p t); reflexivity.
  - destruct (p_rx p); reflexivity.
  - destruct (p_batt p); reflexivity.
Qed.

Lemma apply_id_patch r : apply_patch id_patch r = r.
Proof. destruct r; reflexivity. Qed.

(** A panic-free run of the conditions loop of [UpdateHTTP]: the merged
    Report is [apply_patch] of a patch determined by the conditions alone. *)
Lemma process_conditions_patch (cs : list Parser.EntryHTTP) :
  (exists p, forall x, process_conditions cs x = (apply_patch p x, false)) \/
  (forall x, snd (process_conditions cs x) = true).
Proof.
  induction cs as [|c cs IH].
  - left. exists id_patch. intros x. rewrite apply_id_patch. reflexivity.
  - simpl. destruct (Parser.eh_DataStructureType c) as [s|]; [|right; reflexivity].
    destruct IH as [[p Hp]|Hp].
    + destruct (Z.eqb s _); [|destruct (Z.eqb s _); [|destruct (Z.eqb s _)]];
        destruct (Parser.eh_Values c); try (right; intros x; reflexivity).
      * left. exists (compose_patch p (iss_patch v)). intros x.
        rewrite Hp, processISS_patch, apply_compose_patch. reflexivity.
      * left. exists (compose_patch p (meas_patch Parser.baro_num_tag Parser.no_time_tag v)).
        intros x. unfold processLSSBarometer.
        rewrite Hp, apply_meas_patch, apply_compose_patch. reflexivity.
      * left. exists (compose_patch p (meas_patch Parser.temprh_num_tag Parser.no_time_tag v)).
        intros x. unfold processLSSTempRh.
        rewrite Hp, apply_meas_patch, apply_compose_patch. reflexivity.
      * left. exists p. exact Hp.
      * left. exists p. exact Hp.
      * left. exists p. exact Hp.
      * left. exists p. exact Hp.
    + right. intros x.
      destruct (Z.eqb s _); [|destruct (Z.eqb s _); [|destruct (Z.eqb s _)]];
        destruct (Parser.eh_Values c); try reflexivity; apply Hp.
Qed.

Lemma checksum_set_notify n r : checksum (set_notify n r) = checksum r.
Proof. reflexivity. Qed.

Lemma checksum_set_last c b r : checksum (set_last c b r) = checksum r.
Proof. reflexivity. Qed.

Lemma checksum_marshal r ck b : checksum r = Some (ck, b) -> marshal r = Some b /\ ck = md5hex b.
Proof. unfold checksum. destruct (marshal r); intros H; inversion H; subst; auto. Qed.

Lemma checksum_none r : checksum r = None -> marshal r = None.
Proof. unfold checksum. destruct (marshal r); congruence. Qed.

Lemma ready_flag r :
  (String.eqb (RXState r) "" || String.eqb (TransBatteryFlag r) "") = false <->
  RXState r <> "" /\ TransBatteryFlag r <> "".
Proof.
  rewrite orb_false_iff, !String.eqb_neq. tauto.
Qed.

(** A second [updateHook] on the Report the first one left, with the same
    data, finds the stored checksum (or fails to serialize again). *)
Lemma updateHook_twice ts r2 r1 res1 b1 :
  updateHook ts r2 = (r1, res1, b1) ->
  RXState r1 <> "" -> TransBatteryFlag r1 <> "" ->
  (updateHook ts r1 = (r1, GoOk, HookNoNewData) /\
   exists b, marshal r1 = Some b /\ lastChecksum r1 = Some (md5hex b)) \/
  (updateHook ts r1 = (r1, GoErr err_marshal, HookChecksumFailed) /\ marshal r1 = None).
Proof.
  intros H Hrx Hbt. unfold updateHook in H.
  destruct (checksum r2) as [[ck b]|] eqn:Ec.
  2:{ inversion H; subst. right. split; [unfold updateHook; rewrite Ec; reflexivity|].
      apply checksum_none; exact Ec. }
  destruct (_ || _) eqn:Er.
  { inversion H; subst.
    apply orb_true_iff in Er; rewrite !String.eqb_eq in Er. tauto. }
  destruct (negb (Digest_eqb (Some ck) (lastChecksum r2))) eqn:Ed.
  - set (r3 := set_Timestamp ts r2) in H.
    destruct (checksum r3) as [[c' b']|] eqn:Ec';
      set (r4 := set_last _ _ r3) in H;
      assert (Hck : forall n, checksum (set_notify n r4) = checksum r3 /\ checksum r4 = checksum r3)
        by (intros; split; reflexivity);
      destruct (Nat.ltb _ _); inversion H; subst; clear H.
    + left. split.
      * unfold updateHook. rewrite (proj1 (Hck _)), Ec'. simpl. rewrite Er.
        destruct (Serialized_eq_dec c' c') as [_|Hn]; [reflexivity|exfalso; apply Hn; reflexivity].
      * exists b'. destruct (checksum_marshal _ _ _ Ec') as [Hm ->]. split; [exact Hm|reflexivity].
    + left. split.
      * unfold updateHook. rewrite (proj2 (Hck 0)), Ec'. simpl. rewrite Er.
        destruct (Serialized_eq_dec c' c') as [_|Hn]; [reflexivity|exfalso; apply Hn; reflexivity].
      * exists b'. destruct (checksum_marshal _ _ _ Ec') as [Hm ->]. split; [exact Hm|reflexivity].
    + right. split.
      * unfold updateHook. rewrite (proj1 (Hck _)), Ec'. reflexivity.
      * apply checksum_none. exact Ec'.
    + right. split.
      * unfold updateHook. rewrite (proj2 (Hck 0)), Ec'. reflexivity.
      * apply checksum_none. exact Ec'.
  - inversion H; subst; clear H. left.
    apply negb_false_iff, Digest_eqb_true in Ed.
    split.
    + unfold updateHook. rewrite Ec, Er, <- Ed, Digest_eqb_refl. reflexivity.
    + exists b. destruct (checksum_marshal _ _ _ Ec) as [Hm ->]. split; auto.
Qed.

Lemma set_DeviceID_same r : set_DeviceID (DeviceID r) r = r.
Proof. destruct r; reflexivity. Qed.

Lemma apply_patch_fixed p r x :
  num x = num (apply_patch p r) -> tm x = tm (apply_patch p r) ->
  RXState x = RXState (apply_patch p r) ->
  TransBatteryFlag x = TransBatteryFlag (apply_patch p r) ->
  apply_patch p x = x.
Proof.
  intros Hn Ht Hx Hb. destruct x as [d ts n t rx bt nt vb lc lb]; simpl in *.
  unfold apply_patch; simpl. subst. f_equal.
  - apply functional_extensionality; intros f. destruct (p_num p f); reflexivity.
  - apply functional_extensionality; intros g. destruct (p_tm p g); reflexivity.
  - destruct (p_rx p); reflexivity.
  - destruct (p_batt p); reflexivity.
Qed.

(** Round trip of [marshal] and [unmarshal_report]. *)
Lemma find_layout (s : Slot) :
  find (fun s' => String.eqb (slot_key s') (slot_key s)) report_layout = Some s.
Proof.
  destruct s as [| |f|t| |]; [| |destruct f|destruct t| |]; reflexivity.
Qed.

Lemma unmarshal_slot_copy (r0 r : Report) (s : Slot) :
  unmarshal_slot r s (slot_value r0 s) = Some (copy_slot r0 s r).
Proof.
  destruct s as [| |f|t| |]; simpl; try reflexivity.
  - destruct (num r0 f); reflexivity.
  - destruct (tm r0 t); reflexivity.
Qed.

Lemma unmarshal_fold_copy (r0 : Report) (L : list Slot) (init : Report) :
  fold_left (fun acc kv =>
      match acc with
      | None => None
      | Some r =>
          match find (fun s => String.eqb (slot_key s) (fst kv)) report_layout with
          | None => Some r
          | Some s => unmarshal_slot r s (snd kv)
          end
      end) (map (fun s => (slot_key s, slot_value r0 s)) L) (Some init)
  = Some (fold_left (fun r s => copy_slot r0 s r) L init).
Proof.
  revert init. induction L as [|s L IH]; intros init; [reflexivity|].
  cbn [fold_left map fst snd]. rewrite find_layout, unmarshal_slot_copy. apply IH.
Qed.

Lemma copy_layout (r0 init : Report) :
  fold_left (fun r s => copy_slot r0 s r) report_layout init = with_data r0 init.
Proof.
  destruct r0, init. unfold with_data.
  cbv [fold_left report_layout copy_slot set_DeviceID set_Timestamp set_meas set_health
       DeviceID Timestamp num tm RXState TransBatteryFlag notify verbose lastChecksum lastBytes].
  f_equal.
  - apply functional_extensionality. intros f. destruct f; reflexivity.
  - apply functional_extensionality. intros t. destruct t; reflexivity.
Qed.

Lemma unmarshal_marshal (r0 init : Report) (b : Serialized) :
  marshal r0 = Some b -> unmarshal_report b init = Some (with_data r0 init).
Proof.
  intros H.
  assert (Hb : b = map (fun s => (slot_key s, slot_value r0 s)) report_layout).
  { unfold marshal in H. destruct (forallb _ _); congruence. }
  subst b. unfold unmarshal_report.
  exact (eq_trans (unmarshal_fold_copy r0 report_layout init) (f_equal Some (copy_layout r0 init))).
Qed.

Lemma marshal_with_data (r0 init : Report) : marshal (with_data r0 init) = marshal r0.
Proof. reflexivity. Qed.

(** The merges up to [updateHook] keep the timestamp and bookkeeping. *)
Lemma process_conditions_book (cs : list Parser.EntryHTTP) (r : Report) :
  book (fst (process_conditions cs r)) = book r.
Proof.
  revert r. induction cs as [|c cs IH]; intros r; [reflexivity|].
  simpl. destruct (Parser.eh_DataStructureType c) as [s|]; [|reflexivity].
  destruct (Z.eqb s _); [|destruct (Z.eqb s _); [|destruct (Z.eqb s _)]];
    destruct (Parser.eh_Values c); try reflexivity; rewrite IH; reflexivity.
Qed.

Lemma udp_fold_book (cs : list Parser.EntryUDP) (r : Report) :
  book (fold_left (fun acc c => udp_entry c acc) cs r) = book r.
Proof.
  destruct (udp_fold_frame cs r) as (_ & H2 & _ & _ & H5 & H6 & H7 & H8 & _).
  unfold book. rewrite H2, H5, H6, H7, H8. reflexivity.
Qed.

(** A merge either hands a Report with the same bookkeeping to
    [updateHook], or returns with the bookkeeping untouched. *)
Lemma merge_candidate_spec (m : Merge) (r : Report) :
  match merge_candidate m r with
  | Some (ts, r') => run_merge m r = updateHook ts r' /\ book r' = book r
  | None => book (fst (fst (run_merge m r))) = book r
  end.
Proof.
  destruct m as [c|c|now [p|]]; simpl.
  - unfold UpdateHTTP.
    destruct (Parser.ch_Error c) as [e|]; [reflexivity|].
    destruct (Parser.ch_Data c) as [d|]; [|reflexivity].
    pose proof (process_conditions_book (Parser.wh_Conditions d)
                  (set_DeviceID (Parser.wh_DeviceID d) r)) as Hb.
    destruct (process_conditions _ _) as [r2 []]; [exact Hb|].
    destruct (Parser.wh_Timestamp d); [split; [reflexivity|exact Hb]|exact Hb].
  - unfold UpdateUDP.
    pose proof (udp_fold_book (Parser.cu_Conditions c) (set_DeviceID (Parser.cu_DeviceID c) r)) as Hb.
    destruct (Parser.cu_Timestamp c); [split; [reflexivity|exact Hb]|exact Hb].
  - unfold UpdateJSON. destruct (unmarshal_report p (NewReport false)); [|reflexivity].
    split; reflexivity.
  - reflexivity.
Qed.

(** [updateHook] on content that differs from the stored checksum, with at
    most one pending value on the queue, leaves exactly one. *)
Lemma updateHook_changed (ts : Z) (r : Report) (ck : Digest) (b : Serialized) :
  RXState r <> "" -> TransBatteryFlag r <> "" ->
  checksum r = Some (ck, b) -> Some ck <> lastChecksum r ->
  (notify r <= notify_capacity)%nat ->
  let '(r', res, br) := updateHook ts r in
  notify r' = 1%nat /\ res = GoOk /\ (br = HookNotified \/ br = HookPressure).
Proof.
  intros Hx Hb Hc Hne Hn. unfold updateHook. rewrite Hc.
  rewrite (proj2 (ready_flag r) (conj Hx Hb)).
  assert (Hd : Digest_eqb (Some ck) (lastChecksum r) = false).
  { destruct (Digest_eqb _ _) eqn:E; [|reflexivity].
    apply Digest_eqb_true in E. contradiction. }
  rewrite Hd. simpl negb. cbv iota.
  unfold notify_capacity in *.
  destruct (checksum (set_Timestamp ts r)) as [[c' b']|];
    destruct (Nat.ltb _ _) eqn:El; simpl in El |- *;
    [apply Nat.ltb_lt in El|apply Nat.ltb_ge in El|apply Nat.ltb_lt in El|apply Nat.ltb_ge in El];
    repeat split; auto; lia.
Qed.

(** [updateHook] stores only serializations of ready Reports. *)
Lemma updateHook_stored_ok (ts : Z) (r : Report) :
  stored_ok r -> stored_ok (fst (fst (updateHook ts r))).
Proof.
  intros H. unfold updateHook.
  destruct (checksum r) as [[ck b]|] eqn:Ec; [|exact H].
  destruct (_ || _) eqn:Er; [exact H|].
  apply ready_flag in Er. destruct Er as [Hx Hb].
  destruct (negb _); [|exact H].
  destruct (checksum (set_Timestamp ts r)) as [[c' b']|] eqn:Ec';
    destruct (Nat.ltb _ _); simpl; intros b0 Hb0; try discriminate.
  - injection Hb0 as <-. exists (set_Timestamp ts r).
    destruct (checksum_marshal _ _ _ Ec') as [Hm _]. auto.
  - injection Hb0 as <-. exists (set_Timestamp ts r).
    destruct (checksum_marshal _ _ _ Ec') as [Hm _]. auto.
Qed.

Lemma stored_ok_book (r r' : Report) : book r' = book r -> stored_ok r -> stored_ok r'.
Proof.
  unfold book, stored_ok. intros E H b Hb. apply H.
  injection E as _ _ _ _ E5. congruence.
Qed.

Lemma reachable_stored_ok (r : Report) : reachable r -> stored_ok r.
Proof.
  induction 1 as [v|m r _ IH|r r' _ IH Hc].
  - intros b Hb. discriminate.
  - pose proof (merge_candidate_spec m r) as Hm.
    destruct (merge_candidate m r) as [[ts r']|].
    + destruct Hm as [-> Hb]. apply updateHook_stored_ok.
      apply (stored_ok_book r); assumption.
    + apply (stored_ok_book r); assumption.
  - unfold Copy in Hc. destruct (marshal r) as [buff|]; [|discriminate].
    destruct (unmarshal_report buff _) as [rep|]; [|discriminate].
    injection Hc as <-. exact IH.
Qed.

(** Serializability depends only on the times. *)
Lemma marshal_ok (r r' : Report) (b : Serialized) :
  marshal r = Some b -> tm r' = tm r -> time_marshalable (Timestamp r') = true ->
  exists b', marshal r' = Some b'.
Proof.
  unfold marshal. intros H Ht Hts.
  destruct (forallb (slot_marshalable r) report_layout) eqn:E; [|discriminate].
  assert (E' : forallb (slot_marshalable r') report_layout = true).
  { apply forallb_forall. intros s Hs. rewrite forallb_forall in E.
    specialize (E s Hs). destruct s; simpl in *; try reflexivity.
    - exact Hts.
    - rewrite Ht. exact E. }
  rewrite E'. eexists. reflexivity.
Qed.

(** A content-changing merge leaves exactly one pending value. *)
Lemma merge_changed (m : Merge) (r : Report) :
  (notify r <= notify_capacity)%nat -> content_changing m r ->
  let '(r', res, br) := run_merge m r in
  notify r' = 1%nat /\ res = GoOk /\ (br = HookNotified \/ br = HookPressure).
Proof.
  intros Hn Hc. unfold content_changing in Hc.
  pose proof (merge_candidate_spec m r) as Hm.
  destruct (merge_candidate m r) as [[ts r']|]; [|contradiction].
  destruct Hm as [-> Hb]. destruct Hc as (Hx & Hy & ck & b & Hck & Hne).
  apply (updateHook_changed ts r' ck b Hx Hy Hck Hne).
  unfold book in Hb. injection Hb as _ Hn' _ _ _. rewrite Hn'. exact Hn.
Qed.

(** [json.Marshal] of a Report fails exactly when one of its times lies
    outside the years 0 to 9999. *)
Lemma forallb_slot_times (r : Report) :
  forallb (slot_marshalable r) report_layout = times_marshalable r.
Proof.
  unfold times_marshalable. simpl.
  destruct (time_marshalable (Timestamp r)); simpl; [|reflexivity].
  destruct (tm r RainStormStartAt) as [x|], (tm r RainStormLastStartAt) as [y|],
    (tm r RainStormLastEndAt) as [z|]; simpl;
    repeat match goal with |- context [time_marshalable ?t] => destruct (time_marshalable t) end;
    reflexivity.
Qed.

Lemma marshal_times (r : Report) : marshal r = None <-> times_marshalable r = false.
Proof.
  unfold marshal. rewrite forallb_slot_times.
  destruct (times_marshalable r); split; congruence.
Qed.

Lemma checksum_times (r : Report) :
  checksum r = None <-> times_marshalable r = false.
Proof.
  rewrite <- marshal_times. unfold checksum.
  destruct (marshal r); split; congruence.
Qed.

Lemma UpdateUDP_merge (c : Parser.ConditionsUDP) (r : Report) :
  UpdateUDP c r = match Parser.cu_Timestamp c with
                  | None => (udp_merge c r, GoPanic, HookNotRun)
                  | Some ts => updateHook ts (udp_merge c r)
                  end.
Proof. reflexivity. Qed.

(** On a Report that is not ready, [updateHook] returns it unchanged, with
    success exactly when it can be serialized. *)
Lemma updateHook_gated (ts : Z) (r : Report) :
  RXState r = "" \/ TransBatteryFlag r = "" ->
  updateHook ts r = if times_marshalable r then (r, GoOk, HookNotReady)
                    else (r, GoErr err_marshal, HookChecksumFailed).
Proof.
  intros H. destruct (updateHook_not_ready ts r H) as [E|[E Hc]]; rewrite E.
  - destruct (times_marshalable r) eqn:Ht; [reflexivity|].
    apply checksum_times in Ht. revert E. unfold updateHook. rewrite Ht. discriminate.
  - apply checksum_times in Hc. rewrite Hc. reflexivity.
Qed.

Lemma last_cons_default {A} (a : A) (l : list A) (d : A) :
  last (a :: l) d = last l a.
Proof.
  revert a d. induction l as [|x l IH]; intros a d; [reflexivity|].
  change (last (x :: l) d = last (x :: l) a). rewrite (IH x d), (IH x a). reflexivity.
Qed.

Lemma marshal_set_notify n r : marshal (set_notify n r) = marshal r.
Proof. reflexivity. Qed.

Lemma marshal_set_last c b r : marshal (set_last c b r) = marshal r.
Proof. reflexivity. Qed.

(** The branches of [updateHook]: a notifying branch stamps the event time
    and stores the serialization of the resulting Report; the others return
    the Report unchanged. *)
Lemma updateHook_cases (ts : Z) (r : Report) :
  let '(r', res, br) := updateHook ts r in
  match br with
  | HookNotified =>
      (notify r < notify_capacity)%nat /\ notify r' = S (notify r) /\
      Timestamp r' = ts /\ lastBytes r' = marshal r' /\
      lastChecksum r' = option_map md5hex (marshal r') /\ res = GoOk
  | HookPressure =>
      notify r' = notify r /\ (notify_capacity <= notify r)%nat /\
      Timestamp r' = ts /\ lastBytes r' = marshal r' /\
      lastChecksum r' = option_map md5hex (marshal r') /\ res = GoOk
  | _ => r' = r
  end.
Proof.
  unfold updateHook.
  destruct (checksum r) as [[ck b]|] eqn:Ec; [|reflexivity].
  destruct (_ || _); [reflexivity|].
  destruct (negb _); [|reflexivity].
  change (notify (set_Timestamp ts r)) with (notify r).
  destruct (checksum (set_Timestamp ts r)) as [[c1 b1]|] eqn:E1.
  - apply checksum_marshal in E1 as [Hm Hc]. subst c1.
    destruct (Nat.ltb _ _) eqn:El.
    + apply Nat.ltb_lt in El.
      rewrite marshal_set_notify, marshal_set_last, Hm.
      cbn [notify set_last set_notify Timestamp lastBytes lastChecksum set_Timestamp].
      repeat split; assumption.
    + apply Nat.ltb_ge in El.
      rewrite marshal_set_last, Hm.
      cbn [notify set_last Timestamp lastBytes lastChecksum set_Timestamp].
      repeat split; assumption.
  - apply checksum_none in E1.
    destruct (Nat.ltb _ _) eqn:El.
    + apply Nat.ltb_lt in El.
      rewrite marshal_set_notify, marshal_set_last, E1.
      cbn [notify set_last set_notify Timestamp lastBytes lastChecksum set_Timestamp].
      repeat split; assumption.
    + apply Nat.ltb_ge in El.
      rewrite marshal_set_last, E1.
      cbn [notify set_last Timestamp lastBytes lastChecksum set_Timestamp].
      repeat split; assumption.
Qed.

(** [Decode] of a stored serialization: [UpdateJSON] copies the data of the
    serialized Report into the target and runs [updateHook] at [now]. *)
Lemma Decode_stored (r r0 target : Report) (b : Serialized) (now : Z) :
  lastBytes r = Some b -> marshal r0 = Some b ->
  Decode now (Encode r) target =
  updateHook now (set_Timestamp (Timestamp target) (with_data r0 target)).
Proof.
  intros Hb Hm. unfold Decode, Encode. rewrite Hb. unfold UpdateJSON.
  rewrite (unmarshal_marshal r0 (NewReport false) b Hm). reflexivity.
Qed.

(** [updateHook] on a ready Report: the checksum error, the unchanged
    Report when the checksum equals the stored one, else the stamped and
    stored Report, with a notification when the queue has room. *)
Lemma updateHook_ready (ts : Z) (r : Report) :
  RXState r <> "" -> TransBatteryFlag r <> "" ->
  let '(r', res, br) := updateHook ts r in
  match checksum r with
  | None => r' = r /\ res = GoErr err_marshal /\ br = HookChecksumFailed
  | Some (ck, _) =>
      if Digest_eqb (Some ck) (lastChecksum r)
      then r' = r /\ res = GoOk /\ br = HookNoNewData
      else Timestamp r' = ts /\ res = GoOk /\
           lastBytes r' = marshal r' /\ lastChecksum r' = option_map md5hex (marshal r') /\
           ((notify r < notify_capacity)%nat /\ notify r' = S (notify r) /\ br = HookNotified \/
            (notify_capacity <= notify r)%nat /\ notify r' = notify r /\ br = HookPressure)
  end.
Proof.
  intros Hx Hy. pose proof (updateHook_cases ts r) as Hc.
  pose proof (proj2 (ready_flag r) (conj Hx Hy)) as Hf.
  destruct (updateHook ts r) as [[r' res] br] eqn:E. cbv iota in Hc |- *.
  destruct (checksum r) as [[ck b]|] eqn:Ec.
  - destruct (Digest_eqb (Some ck) (lastChecksum r)) eqn:Ed.
    + revert E. unfold updateHook. rewrite Ec, Hf, Ed. cbn [negb].
      intros E. injection E as <- <- <-. repeat split.
    + assert (Hbr : res = GoOk /\ (br = HookNotified \/ br = HookPressure)).
      { revert E. unfold updateHook. rewrite Ec, Hf, Ed. cbn [negb]. cbv zeta.
        destruct (checksum (set_Timestamp ts r)) as [[c1 b1]|];
          destruct (Nat.ltb _ _); intros E; injection E as _ <- <-; auto. }
      destruct Hbr as [-> [-> | ->]].
      * destruct Hc as (H1 & H2 & H3 & H4 & H5 & _).
        repeat split; try assumption. left. repeat split; assumption.
      * destruct Hc as (H1 & H2 & H3 & H4 & H5 & _).
        repeat split; try assumption. right. repeat split; assumption.
  - revert E. unfold updateHook. rewrite Ec.
    intros E. injection E as <- <- <-. repeat split.
Qed.

(** * Claims *)

(** ** C7 *)

(** C7: a [ConditionsHTTP] value whose [Error] is non-nil makes [UpdateHTTP]
    return that error with the Report left exactly as it was: no field, no
    bookkeeping and no notification changes. *)
Theorem C7_http_error_atomic (c : Parser.ConditionsHTTP) (r : Report) (e : Parser.Error) :
  Parser.ch_Error c = Some e ->
  UpdateHTTP c r = (r, GoErr (Parser.Message e), HookNotRun).
Proof.
  intros He. unfold UpdateHTTP. rewrite He. reflexivity.
Qed.

Lemma C7_http_error_atomic_witness :
  let c := decoded_http (JObj [("error", JObj [("code", JNum 1); ("message", JStr "busy")])]) in
  Parser.ch_Error c = Some (Parser.mkError 1 "busy") /\
  UpdateHTTP c (NewReport false) = (NewReport false, GoErr "busy", HookNotRun).
Proof.
  split; [vm_compute; reflexivity|].
  apply (C7_http_error_atomic _ _ (Parser.mkError 1 "busy")). vm_compute. reflexivity.
Defined.

(** ** C8 *)

(** C8: [UpdateUDP] keeps [RXState] and [TransBatteryFlag], every [*float64]
    field other than the wind-speed/direction, rain and 10-minute gust fields
    of [EntryUDP], and every time field other than [RainStormStartAt]. *)
Theorem C8_udp_merge_frame (c : Parser.ConditionsUDP) (r : Report) :
  let r' := fst (fst (UpdateUDP c r)) in
  RXState r' = RXState r /\ TransBatteryFlag r' = TransBatteryFlag r /\
  (forall f, ~ In f [WindSpeedLast; WindDirLast; RainSize; RainRateLast;
                     RainLast15Min; RainLast60Min; RainLast24Hour; RainStorm;
                     RainfallDaily; RainfallMonthly; RainfallYear;
                     WindSpeedHighLast10Min; WindDirAtHighLast10Min] ->
             num r' f = num r f) /\
  (forall t, t <> RainStormStartAt -> tm r' t = tm r t).
Proof.
  unfold UpdateUDP.
  destruct (udp_fold_frame (Parser.cu_Conditions c) (set_DeviceID (Parser.cu_DeviceID c) r))
    as (_ & _ & H3 & H4 & _ & _ & _ & _ & Hn & Ht).
  set (r2 := fold_left _ _ _) in *.
  assert (Hr2 : RXState r2 = RXState r /\ TransBatteryFlag r2 = TransBatteryFlag r /\
                (forall f, Parser.udp_num_tag f = None -> num r2 f = num r f) /\
                (forall t, Parser.udp_time_tag t = None -> tm r2 t = tm r t))
    by (repeat split; assumption).
  assert (Hfin : let r' := match Parser.cu_Timestamp c with
                           | Some ts => updateHook ts r2
                           | None => (r2, GoPanic, HookNotRun) end in
                 RXState (fst (fst r')) = RXState r2 /\
                 TransBatteryFlag (fst (fst r')) = TransBatteryFlag r2 /\
                 num (fst (fst r')) = num r2 /\ tm (fst (fst r')) = tm r2).
  { destruct (Parser.cu_Timestamp c) as [ts|]; [|simpl; tauto].
    destruct (updateHook_data ts r2) as (_ & Hn2 & Ht2 & Hx2 & Hb2 & _). cbv zeta in *. tauto. }
  cbv zeta in Hfin. destruct Hfin as (Fx & Fb & Fn & Ft).
  destruct Hr2 as (Rx & Rb & Rn & Rt).
  repeat split.
  - rewrite Fx; exact Rx.
  - rewrite Fb; exact Rb.
  - intros f Hf. rewrite Fn. apply Rn.
    destruct f; try reflexivity; exfalso; apply Hf; simpl; tauto.
  - intros t Hne. rewrite Ft. apply Rt. destruct t; [congruence|reflexivity|reflexivity].
Qed.

(** ** C1 *)

(** C1 (counterexample): on a fresh Report, a UDP broadcast whose
    [rain_storm_start_at] lies after the year 9999 makes [UpdateUDP] return
    the serialization error of [checksum], not success. *)
Lemma C1_udp_gated_counterexample :
  match Parser.ParseUDP (udp_payload 1600000000 10000000000000) with
  | ROk c => snd (fst (UpdateUDP c (NewReport false))) = GoErr err_marshal
  | _ => False
  end.
Proof. vm_compute. reflexivity. Qed.

(** C1 (amended): on a Report whose [RXState] or [TransBatteryFlag] is
    empty, a sequence of [UpdateUDP] calls whose broadcasts all carry a
    timestamp leaves [Timestamp], [lastChecksum], [lastBytes], the
    notification queue and the two health fields unchanged, and ends with the
    last merged Report. Call [i] never compares nor notifies: it returns
    success when every time of its merged Report ([udp_merges]) lies in the
    years 0 to 9999, and the [checksum] error otherwise. *)
Theorem C1_udp_gated (cs : list Parser.ConditionsUDP) (r : Report) :
  RXState r = "" \/ TransBatteryFlag r = "" ->
  Forall (fun c => Parser.cu_Timestamp c <> None) cs ->
  let '(r', outs) := UpdateUDP_seq cs r in
  Timestamp r' = Timestamp r /\ lastChecksum r' = lastChecksum r /\
  lastBytes r' = lastBytes r /\ notify r' = notify r /\
  RXState r' = RXState r /\ TransBatteryFlag r' = TransBatteryFlag r /\
  r' = last (udp_merges cs r) r /\
  outs = map (fun m => if times_marshalable m then (GoOk, HookNotReady)
                       else (GoErr err_marshal, HookChecksumFailed))
             (udp_merges cs r).
Proof.
  revert r. induction cs as [|c cs IH]; intros r Hr Hts.
  - simpl. repeat split.
  - inversion Hts as [|c' cs' Hc Hcs]; subst c' cs'.
    destruct (Parser.cu_Timestamp c) as [ts|] eqn:Ets; [|congruence].
    destruct (udp_fold_frame (Parser.cu_Conditions c) (set_DeviceID (Parser.cu_DeviceID c) r))
      as (_ & T1 & X1 & Y1 & N1 & C1 & B1 & _).
    fold (udp_merge c r) in T1, X1, Y1, N1, C1, B1.
    set (r1 := udp_merge c r) in *. simpl in T1, X1, Y1, N1, C1, B1.
    assert (Hr1 : RXState r1 = "" \/ TransBatteryFlag r1 = "")
      by (rewrite X1, Y1; exact Hr).
    specialize (IH r1 Hr1 Hcs).
    simpl UpdateUDP_seq. rewrite UpdateUDP_merge, Ets. fold r1.
    rewrite (updateHook_gated ts r1 Hr1).
    change (udp_merges (c :: cs) r) with (r1 :: udp_merges cs r1).
    destruct (times_marshalable r1) eqn:Em;
      destruct (UpdateUDP_seq cs r1) as [r2 outs];
      destruct IH as (T2 & C2 & B2 & N2 & X2 & Y2 & L2 & O2);
      (repeat split; try congruence;
       first [ rewrite L2, last_cons_default; reflexivity
             | simpl; rewrite Em, O2; reflexivity ]).
Qed.

Lemma C1_udp_gated_witness :
  let cs := [decoded_udp (udp_payload 1600000000 1599990000);
             decoded_udp (udp_payload 1600000060 10000000000000);
             decoded_udp (udp_payload 1600000120 1599990000)] in
  (RXState (NewReport false) = "" \/ TransBatteryFlag (NewReport false) = "") /\
  Forall (fun c => Parser.cu_Timestamp c <> None) cs /\
  let '(r', outs) := UpdateUDP_seq cs (NewReport false) in
  Timestamp r' = Timestamp (NewReport false) /\
  lastChecksum r' = lastChecksum (NewReport false) /\
  lastBytes r' = lastBytes (NewReport false) /\ notify r' = notify (NewReport false) /\
  RXState r' = RXState (NewReport false) /\
  TransBatteryFlag r' = TransBatteryFlag (NewReport false) /\
  r' = last (udp_merges cs (NewReport false)) (NewReport false) /\
  outs = map (fun m => if times_marshalable m then (GoOk, HookNotReady)
                       else (GoErr err_marshal, HookChecksumFailed))
             (udp_merges cs (NewReport false)).
Proof.
  cbv zeta.
  assert (Hts : Forall (fun c => Parser.cu_Timestamp c <> None)
                  [decoded_udp (udp_payload 1600000000 1599990000);
                   decoded_udp (udp_payload 1600000060 10000000000000);
                   decoded_udp (udp_payload 1600000120 1599990000)])
    by (vm_compute; repeat constructor; discriminate).
  split; [left; reflexivity|]. split; [exact Hts|].
  apply C1_udp_gated; [left; reflexivity|exact Hts].
Defined.

(** ** C5 *)

(** C5 (counterexample): a batch whose [ts] lies after the year 9999 is
    merged with a notification, but the second merge of the same batch cannot
    compute the checksum: it returns the serialization error. *)
Lemma C5_http_idempotent_counterexample :
  let c := decoded_http (http_payload_iss_baro 10000000000000) in
  let r1 := fst (fst (UpdateHTTP c (NewReport false))) in
  snd (UpdateHTTP c (NewReport false)) = HookNotified /\
  snd (fst (UpdateHTTP c r1)) = GoErr err_marshal /\
  snd (UpdateHTTP c r1) = HookChecksumFailed.
Proof. vm_compute. repeat split; reflexivity. Qed.

(** C5 (amended): if an error-free [ConditionsHTTP] was merged without a
    panic and left the health fields set, merging it again returns the
    Report unchanged (no timestamp update, no notification): either the
    checksum equals the stored one and the call succeeds, or the Report
    cannot be serialized and the call returns that error. *)
Theorem C5_http_idempotent (c : Parser.ConditionsHTTP) (r r1 : Report)
    (res1 : GoRes) (b1 : HookBranch) :
  Parser.ch_Error c = None ->
  UpdateHTTP c r = (r1, res1, b1) -> res1 <> GoPanic ->
  RXState r1 <> "" -> TransBatteryFlag r1 <> "" ->
  (UpdateHTTP c r1 = (r1, GoOk, HookNoNewData) /\
   exists b, marshal r1 = Some b /\ lastChecksum r1 = Some (md5hex b)) \/
  (UpdateHTTP c r1 = (r1, GoErr err_marshal, HookChecksumFailed) /\ marshal r1 = None).
Proof.
  intros HE E HP Hrx Hbt. unfold UpdateHTTP in *. rewrite HE in *.
  destruct (Parser.ch_Data c) as [d|]; [|inversion E; congruence].
  destruct (process_conditions_patch (Parser.wh_Conditions d)) as [[p Hp]|Hp].
  2:{ exfalso.
      destruct (process_conditions (Parser.wh_Conditions d)
                  (set_DeviceID (Parser.wh_DeviceID d) r)) as [r2 pan] eqn:Epc.
      specialize (Hp (set_DeviceID (Parser.wh_DeviceID d) r)).
      rewrite Epc in Hp. simpl in Hp. subst pan. inversion E; congruence. }
  rewrite !Hp in *.
  destruct (Parser.wh_Timestamp d) as [ts|]; [|inversion E; congruence].
  set (r2 := apply_patch p (set_DeviceID (Parser.wh_DeviceID d) r)) in E.
  assert (Hfix : apply_patch p (set_DeviceID (Parser.wh_DeviceID d) r1) = r1).
  { destruct (updateHook_data ts r2) as (Hd & Hn & Ht & Hx & Hb & _).
    rewrite E in Hd, Hn, Ht, Hx, Hb. cbn [fst] in Hd, Hn, Ht, Hx, Hb.
    assert (Hd' : DeviceID r1 = Parser.wh_DeviceID d) by (rewrite Hd; reflexivity).
    rewrite <- Hd', set_DeviceID_same.
    apply (apply_patch_fixed p (set_DeviceID (Parser.wh_DeviceID d) r)); assumption. }
  rewrite Hfix.
  exact (updateHook_twice ts r2 r1 res1 b1 E Hrx Hbt).
Qed.

Lemma C5_http_idempotent_witness :
  let c := decoded_http (http_payload_iss_baro 1600000000) in
  let r1 := fst (fst (UpdateHTTP c (NewReport false))) in
  (UpdateHTTP c r1 = (r1, GoOk, HookNoNewData) /\
   exists b, marshal r1 = Some b /\ lastChecksum r1 = Some (md5hex b)) \/
  (UpdateHTTP c r1 = (r1, GoErr err_marshal, HookChecksumFailed) /\ marshal r1 = None).
Proof.
  apply (C5_http_idempotent _ (NewReport false) _
           (snd (fst (UpdateHTTP (decoded_http (http_payload_iss_baro 1600000000)) (NewReport false))))
           (snd (UpdateHTTP (decoded_http (http_payload_iss_baro 1600000000)) (NewReport false)))).
  - vm_compute. reflexivity.
  - vm_compute. reflexivity.
  - vm_compute. discriminate.
  - vm_compute. discriminate.
  - vm_compute. discriminate.
Defined.

(** ** C10 *)

(** C10: [ParseUDP] and [ParseHTTP] accept payloads without [ts] (and
    without [data]), leaving the pointer nil; [UpdateUDP] panics exactly
    when its [Timestamp] is nil, and [UpdateHTTP] panics on an error-free
    value whose [Data] or [Data.Timestamp] is nil. *)
Theorem C10_merge_nil_panic :
  (exists c, Parser.ParseUDP (JObj [("did", JStr "X"); ("conditions", JArr [])]) = ROk c /\
             Parser.cu_Timestamp c = None) /\
  (exists c, Parser.ParseHTTP (JObj []) = ROk c /\
             Parser.ch_Error c = None /\ Parser.ch_Data c = None) /\
  (exists c d, Parser.ParseHTTP (JObj [("data", JObj [("did", JStr "X"); ("conditions", JArr [])])])
                 = ROk c /\
               Parser.ch_Error c = None /\ Parser.ch_Data c = Some d /\
               Parser.wh_Timestamp d = None) /\
  (forall c r, snd (fst (UpdateUDP c r)) = GoPanic <-> Parser.cu_Timestamp c = None) /\
  (forall c r, Parser.ch_Error c = None ->
     (Parser.ch_Data c = None \/
      exists d, Parser.ch_Data c = Some d /\ Parser.wh_Timestamp d = None) ->
     snd (fst (UpdateHTTP c r)) = GoPanic).
Proof.
  split; [eexists; split; [vm_compute; reflexivity|reflexivity]|].
  split; [eexists; split; [vm_compute; reflexivity|split; reflexivity]|].
  split; [do 2 eexists; split; [vm_compute; reflexivity|repeat split; reflexivity]|].
  split.
  - intros c r. unfold UpdateUDP.
    destruct (Parser.cu_Timestamp c) as [ts|]; [|split; reflexivity].
    split; [intros H; exfalso; exact (updateHook_no_panic _ _ H)|discriminate].
  - intros c r HE Hd. unfold UpdateHTTP. rewrite HE.
    destruct Hd as [Hd|(d & Hd & Ht)]; rewrite Hd; [reflexivity|].
    destruct (process_conditions _ _) as [r2 []]; [reflexivity|].
    rewrite Ht. reflexivity.
Qed.

(** ** C2 *)

(** C2 (counterexample): [Client.Report] on a freshly created client
    succeeds. *)
Lemma C2_report_snapshot_counterexample :
  match Client_Report (Managed false) with ROk _ => True | _ => False end.
Proof. vm_compute. exact I. Qed.

(** C2 (amended): on a client no update reached, [Client.Report] returns
    the empty Report; in general it fails exactly when the current Report
    cannot be serialized, and it never panics. *)
Theorem C2_report_snapshot :
  (forall v, Client_Report (Managed v) = ROk (NewReport v)) /\
  (forall c, (exists e, Client_Report c = RErr e) <-> marshal (report c) = None) /\
  (forall c, Client_Report c <> RPanic).
Proof.
  assert (Hc : forall r, match Copy r with
                         | ROk r' => exists b, marshal r = Some b /\
                                       r' = set_last (lastChecksum r) (lastBytes r)
                                              (with_data r (NewReport (verbose r)))
                         | RErr e => marshal r = None
                         | RPanic => False end).
  { intros r. unfold Copy. destruct (marshal r) as [b|] eqn:Em; [|reflexivity].
    rewrite (unmarshal_marshal r _ b Em). eexists; split; reflexivity. }
  split; [|split].
  - intros v. specialize (Hc (NewReport v)). unfold Client_Report, Managed. simpl report.
    destruct (Copy (NewReport v)) as [r'| |]; [|destruct v; vm_compute in Hc; discriminate|contradiction].
    destruct Hc as [b [_ ->]]. destruct v; reflexivity.
  - intros c. specialize (Hc (report c)). unfold Client_Report.
    destruct (Copy (report c)) as [r'|e|]; [|split; [auto|eauto]|contradiction].
    destruct Hc as [b [Hb _]]. split; [intros [e He]; discriminate|congruence].
  - intros c. specialize (Hc (report c)). unfold Client_Report.
    destruct (Copy (report c)); [discriminate|discriminate|contradiction].
Qed.

(** ** C3 *)

(** C3 (counterexample): a Report that notified at [ts = 1600000000],
    encoded and decoded at [1700000000], comes back with the decoding time
    as its [Timestamp]. *)
Lemma C3_roundtrip_counterexample :
  let r := fst (fst (UpdateHTTP (decoded_http (http_payload_iss_baro 1600000000))
                                (NewReport false))) in
  reachable r /\ lastBytes r <> None /\
  Timestamp (fst (fst (Decode 1700000000 (Encode r) (NewReport false)))) <> Timestamp r.
Proof.
  split; [exact (reachable_merge (MergeHTTP (decoded_http (http_payload_iss_baro 1600000000))) _ (reachable_new false))|].
  vm_compute. split; discriminate.
Qed.

(** C3 (amended): a reachable Report's stored serialization is the
    serialization of a ready Report [r0]. [Decode] of [Encode r] into any
    Report [target] at time [now] hands to [updateHook] the Report [r1]
    holding [r0]'s device identifier, measurements and health fields with
    [target]'s [Timestamp] and bookkeeping (queue, verbose flag, stored
    checksum and bytes); the result keeps those data fields and [target]'s
    verbose flag. When [r1] cannot be serialized the result is [r1] with the
    serialization error; when [r1]'s checksum equals [target]'s stored
    checksum it is [r1] (the [Timestamp] and bookkeeping of [target]) with
    success; otherwise the result is stamped [now], stores its own
    serialization and checksum, and notifies when the queue has room. Into
    a fresh Report at a time [now] in the years 0 to 9999, the content
    always differs, so the Report is stamped [now] and notifies once. *)
Theorem C3_decode_encode (r : Report) (b : Serialized) :
  reachable r -> lastBytes r = Some b ->
  exists r0, marshal r0 = Some b /\ RXState r0 <> "" /\ TransBatteryFlag r0 <> "" /\
  (forall now target,
     let r1 := set_Timestamp (Timestamp target) (with_data r0 target) in
     let '(r', res, br) := Decode now (Encode r) target in
     DeviceID r' = DeviceID r0 /\ num r' = num r0 /\ tm r' = tm r0 /\
     RXState r' = RXState r0 /\ TransBatteryFlag r' = TransBatteryFlag r0 /\
     verbose r' = verbose target /\
     match checksum r1 with
     | None => r' = r1 /\ res = GoErr err_marshal /\ br = HookChecksumFailed
     | Some (ck, _) =>
         if Digest_eqb (Some ck) (lastChecksum target)
         then r' = r1 /\ res = GoOk /\ br = HookNoNewData
         else Timestamp r' = now /\ res = GoOk /\
              lastBytes r' = marshal r' /\ lastChecksum r' = option_map md5hex (marshal r') /\
              ((notify target < notify_capacity)%nat /\ notify r' = S (notify target) /\
               br = HookNotified \/
               (notify_capacity <= notify target)%nat /\ notify r' = notify target /\
               br = HookPressure)
     end) /\
  (forall now v, time_marshalable now = true ->
     let '(r', res, br) := Decode now (Encode r) (NewReport v) in
     Timestamp r' = now /\ notify r' = 1%nat /\ res = GoOk /\ br = HookNotified).
Proof.
  intros Hr Hb.
  destruct (reachable_stored_ok r Hr b Hb) as (r0 & Hm & Hx & Hy).
  exists r0. split; [exact Hm|]. split; [exact Hx|]. split; [exact Hy|].
  split.
  - intros now target. cbv zeta.
    rewrite (Decode_stored r r0 target b now Hb Hm).
    set (r1 := set_Timestamp (Timestamp target) (with_data r0 target)).
    pose proof (updateHook_ready now r1 Hx Hy) as Hu.
    destruct (updateHook_data now r1) as (H1 & H2 & H3 & H4 & H5 & H6).
    destruct (updateHook now r1) as [[r' res] br]. cbn [fst] in H1, H2, H3, H4, H5, H6.
    rewrite H1, H2, H3, H4, H5, H6.
    split; [reflexivity|]. split; [reflexivity|]. split; [reflexivity|].
    split; [reflexivity|]. split; [reflexivity|]. split; [reflexivity|].
    exact Hu.
  - intros now v Hnow.
    rewrite (Decode_stored r r0 (NewReport v) b now Hb Hm).
    set (r1 := set_Timestamp (Timestamp (NewReport v)) (with_data r0 (NewReport v))).
    destruct (marshal_ok r0 r1 b Hm eq_refl eq_refl) as [b1 Hm1].
    destruct (marshal_ok r0 (set_Timestamp now r1) b Hm eq_refl Hnow) as [b2 Hm2].
    unfold updateHook, checksum. rewrite Hm1.
    replace (String.eqb (RXState r1) "" || String.eqb (TransBatteryFlag r1) "") with false
      by (symmetry; apply ready_flag; split; assumption).
    simpl negb. cbv iota. rewrite Hm2. simpl. repeat split; reflexivity.
Qed.

Lemma C3_decode_encode_witness :
  let r := fst (fst (UpdateHTTP (decoded_http (http_payload_iss_baro 1600000000))
                                (NewReport false))) in
  exists b, lastBytes r = Some b /\
  exists r0, marshal r0 = Some b /\ RXState r0 <> "" /\ TransBatteryFlag r0 <> "" /\
  (forall now target,
     let r1 := set_Timestamp (Timestamp target) (with_data r0 target) in
     let '(r', res, br) := Decode now (Encode r) target in
     DeviceID r' = DeviceID r0 /\ num r' = num r0 /\ tm r' = tm r0 /\
     RXState r' = RXState r0 /\ TransBatteryFlag r' = TransBatteryFlag r0 /\
     verbose r' = verbose target /\
     match checksum r1 with
     | None => r' = r1 /\ res = GoErr err_marshal /\ br = HookChecksumFailed
     | Some (ck, _) =>
         if Digest_eqb (Some ck) (lastChecksum target)
         then r' = r1 /\ res = GoOk /\ br = HookNoNewData
         else Timestamp r' = now /\ res = GoOk /\
              lastBytes r' = marshal r' /\ lastChecksum r' = option_map md5hex (marshal r') /\
              ((notify target < notify_capacity)%nat /\ notify r' = S (notify target) /\
               br = HookNotified \/
               (notify_capacity <= notify target)%nat /\ notify r' = notify target /\
               br = HookPressure)
     end) /\
  (forall now v, time_marshalable now = true ->
     let '(r', res, br) := Decode now (Encode r) (NewReport v) in
     Timestamp r' = now /\ notify r' = 1%nat /\ res = GoOk /\ br = HookNotified).
Proof.
  eexists. split; [vm_compute; reflexivity|].
  apply C3_decode_encode.
  - exact (reachable_merge (MergeHTTP (decoded_http (http_payload_iss_baro 1600000000))) _ (reachable_new false)).
  - vm_compute. reflexivity.
Defined.

(** ** C4 *)

(** C4: a condition record whose [data_structure_type] is none of 1, 3, 4
    makes [EntryHTTP.UnmarshalJSON] return the error of
    [json.Unmarshal(payload, nil)]; the error ends the decoding of the whole
    batch, as for [http_payload_unknown_type], which [ParseHTTP] rejects
    while it accepts the same batch without the unknown record. *)
Theorem C4_unknown_type_rejects_batch (e : Parser.EntryHTTP) (payload : json)
    (h : Parser.conditionHeader) (s : Z) :
  Unmarshal Parser.dec_conditionHeader (Parser.mkHeader None None) payload = ROk h ->
  Parser.hd_DataStructureType h = Some s ->
  s <> Parser.RecordISS -> s <> Parser.RecordLSSBarometer -> s <> Parser.RecordLSSTempRh ->
  Parser.dec_EntryHTTP e payload = DErr err_nil_target /\
  Parser.ParseHTTP http_payload_unknown_type = RErr err_nil_target /\
  exists c, Parser.ParseHTTP (http_payload_iss_baro 1600000000) = ROk c.
Proof.
  intros Hh Hs H1 H3 H4. split; [|split; [vm_compute; reflexivity|eexists; vm_compute; reflexivity]].
  unfold Parser.dec_EntryHTTP. rewrite Hh, Hs.
  apply Z.eqb_neq in H1, H3, H4. rewrite H1, H3, H4. reflexivity.
Qed.

Lemma C4_unknown_type_rejects_batch_witness :
  Parser.dec_EntryHTTP Parser.zero_EntryHTTP
    (JObj [("lsid", JNum 5); ("data_structure_type", JNum 2)]) = DErr err_nil_target /\
  Parser.ParseHTTP http_payload_unknown_type = RErr err_nil_target /\
  exists c, Parser.ParseHTTP (http_payload_iss_baro 1600000000) = ROk c.
Proof.
  apply (C4_unknown_type_rejects_batch _ _ (Parser.mkHeader (Some 5%Z) (Some 2%Z)) 2%Z);
    [vm_compute; reflexivity|reflexivity|discriminate|discriminate|discriminate].
Defined.

(** ** C6 *)

(** C6: from a queue holding at most one value, two content-changing merges
    with no read in between both succeed without blocking (a send, or the
    [default] branch when the queue is full) and leave exactly one pending
    value. *)
Theorem C6_coalescing (m1 m2 : Merge) (r : Report) :
  (notify r <= notify_capacity)%nat ->
  content_changing m1 r -> content_changing m2 (fst (fst (run_merge m1 r))) ->
  let '(r1, res1, b1) := run_merge m1 r in
  let '(r2, res2, b2) := run_merge m2 r1 in
  notify r1 = 1%nat /\ notify r2 = 1%nat /\ res1 = GoOk /\ res2 = GoOk /\
  (b1 = HookNotified \/ b1 = HookPressure) /\ (b2 = HookNotified \/ b2 = HookPressure).
Proof.
  intros Hn H1 H2.
  pose proof (merge_changed m1 r Hn H1) as E1.
  destruct (run_merge m1 r) as [[r1 res1] b1].
  destruct E1 as (N1 & R1 & B1). simpl in H2.
  assert (Hn1 : (notify r1 <= notify_capacity)%nat) by (rewrite N1; unfold notify_capacity; lia).
  pose proof (merge_changed m2 r1 Hn1 H2) as E2.
  destruct (run_merge m2 r1) as [[r2 res2] b2].
  destruct E2 as (N2 & R2 & B2). cbv beta iota. tauto.
Qed.

Lemma C6_coalescing_witness :
  let m1 := MergeHTTP (decoded_http (http_payload_iss_baro 1600000000)) in
  let m2 := MergeUDP (decoded_udp (udp_payload 1600000060 1599990000)) in
  let '(r1, res1, b1) := run_merge m1 (NewReport false) in
  let '(r2, res2, b2) := run_merge m2 r1 in
  notify r1 = 1%nat /\ notify r2 = 1%nat /\ res1 = GoOk /\ res2 = GoOk /\
  (b1 = HookNotified \/ b1 = HookPressure) /\ (b2 = HookNotified \/ b2 = HookPressure).
Proof.
  apply C6_coalescing.
  - vm_compute. lia.
  - unfold content_changing. vm_compute.
    split; [discriminate|split; [discriminate|]].
    do 2 eexists. split; [reflexivity|discriminate].
  - unfold content_changing. vm_compute.
    split; [discriminate|split; [discriminate|]].
    do 2 eexists. split; [reflexivity|discriminate].
Defined.

(** ** C9 *)

(** C9: a watchdog iteration past the receive deadline sends exactly one
    lease request; on a response carrying connection data it sets the port
    to the response's, keeps the last-reported time and calls [resolved]
    once exactly when the previous port was 0; when the request fails the
    client is left as it was. *)
Theorem C9_watchdog_tick (now : Z) (transport : option json) (c : Client) :
  (udpDeadline < now - udpLastReported c)%Z ->
  let '(c', evs, res) := udpWatchdog_tick now transport c in
  count_occ WatchdogEvent_eq_dec evs LeaseRequest = 1%nat /\
  (forall b ci, fetchBroadcastResponse transport = ROk b -> Parser.br_ConnInfo b = Some ci ->
     udpPort c' = Parser.Port ci /\ udpLastReported c' = udpLastReported c /\
     report c' = report c /\
     count_occ WatchdogEvent_eq_dec evs ResolvedCalled =
       (if Z.eqb (udpPort c) 0 then 1 else 0)%nat /\ res = GoOk) /\
  (forall e, fetchBroadcastResponse transport = RErr e ->
     c' = c /\ evs = [LeaseRequest] /\ res = GoOk).
Proof.
  intros H. unfold udpWatchdog_tick. apply Z.ltb_lt in H. rewrite H.
  destruct (fetchBroadcastResponse transport) as [b|e|] eqn:E.
  - destruct (Parser.br_ConnInfo b) as [ci|] eqn:Ec.
    + split; [destruct (Z.eqb (udpPort c) 0); reflexivity|].
      split; [|intros e He; discriminate].
      intros b' ci' Hb' Hc'. injection Hb' as <-. rewrite Ec in Hc'. injection Hc' as <-.
      destruct (Z.eqb (udpPort c) 0); repeat split.
    + split; [reflexivity|]. split; [|intros e He; discriminate].
      intros b' ci' Hb' Hc'. injection Hb' as <-. congruence.
  - split; [reflexivity|]. split; [intros b ci Hb; discriminate|auto].
  - split; [reflexivity|]. split; [intros b ci Hb; discriminate|intros e' He; discriminate].
Qed.

Lemma C9_watchdog_tick_witness :
  let tr := Some (JObj [("data", JObj [("broadcast_port", JNum 22222); ("duration", JNum 1200)]);
                        ("error", JNull)]) in
  let '(c', evs, res) := udpWatchdog_tick 0 tr (Managed false) in
  count_occ WatchdogEvent_eq_dec evs LeaseRequest = 1%nat /\
  (forall b ci, fetchBroadcastResponse tr = ROk b -> Parser.br_ConnInfo b = Some ci ->
     udpPort c' = Parser.Port ci /\ udpLastReported c' = udpLastReported (Managed false) /\
     report c' = report (Managed false) /\
     count_occ WatchdogEvent_eq_dec evs ResolvedCalled =
       (if Z.eqb (udpPort (Managed false)) 0 then 1 else 0)%nat /\ res = GoOk) /\
  (forall e, fetchBroadcastResponse tr = RErr e ->
     c' = Managed false /\ evs = [LeaseRequest] /\ res = GoOk).
Proof.
  apply C9_watchdog_tick. vm_compute. reflexivity.
Defined.

(** * Further properties: bookkeeping, copies, the event loops, discovery *)

(** [updateHook] returns [nil] as soon as the checksum can be computed. *)
Lemma updateHook_ok (ts : Z) (r : Report) :
  checksum r <> None -> snd (fst (updateHook ts r)) = GoOk.
Proof.
  intros H. unfold updateHook.
  destruct (checksum r) as [[ck b]|]; [|congruence].
  destruct (_ || _); [reflexivity|].
  destruct (negb _); [|reflexivity].
  destruct (checksum (set_Timestamp ts r)) as [[c1 b1]|];
    destruct (Nat.ltb _ _); reflexivity.
Qed.

(** A merge that does not reach [updateHook] reports [HookNotRun]. *)
Lemma merge_candidate_none (m : Merge) (r : Report) :
  merge_candidate m r = None -> snd (run_merge m r) = HookNotRun.
Proof.
  destruct m as [c|c|now p]; unfold merge_candidate, run_merge.
  - unfold UpdateHTTP.
    destruct (Parser.ch_Error c); [reflexivity|].
    destruct (Parser.ch_Data c) as [d|]; [|reflexivity].
    destruct (process_conditions _ _) as [r2 []]; [reflexivity|].
    destruct (Parser.wh_Timestamp d); [discriminate|reflexivity].
  - unfold UpdateUDP. destruct (Parser.cu_Timestamp c); [discriminate|reflexivity].
  - unfold UpdateJSON. destruct p as [p|]; [|reflexivity].
    destruct (unmarshal_report p (NewReport false)); [discriminate|reflexivity].
Qed.

(** The time a merge hands to [updateHook] is [merge_time]. *)
Lemma merge_candidate_time (m : Merge) (r : Report) (ts : Z) (r0 : Report) :
  merge_candidate m r = Some (ts, r0) -> merge_time m = Some ts.
Proof.
  destruct m as [c|c|now p]; unfold merge_candidate, merge_time.
  - destruct (Parser.ch_Error c); [discriminate|].
    destruct (Parser.ch_Data c) as [d|]; [|discriminate].
    destruct (process_conditions _ _) as [r2 []]; [discriminate|].
    destruct (Parser.wh_Timestamp d); congruence.
  - destruct (Parser.cu_Timestamp c); congruence.
  - destruct p as [p|]; [|discriminate].
    destruct (unmarshal_report p (NewReport false)); congruence.
Qed.

Lemma book_notify (r r' : Report) : book r' = book r -> notify r' = notify r.
Proof. unfold book. intros E. injection E. auto. Qed.

(** [Copy] in closed form: it fails only when the Report cannot be
    serialized; the copy has the data of [r] (its [Timestamp] included), its
    [verbose] flag and stored checksum and bytes, and an empty queue. *)
Lemma Copy_eq (r : Report) :
  Copy r = match marshal r with
           | None => RErr err_marshal
           | Some _ => ROk (set_last (lastChecksum r) (lastBytes r)
                              (with_data r (NewReport (verbose r))))
           end.
Proof.
  unfold Copy. destruct (marshal r) as [b|] eqn:Hm; [|reflexivity].
  rewrite (unmarshal_marshal r (NewReport (verbose r)) b Hm). reflexivity.
Qed.

(** What a merge does with the notification queue and the stored
    serialization, by the branch it reports. *)
Lemma run_merge_cases (m : Merge) (r : Report) :
  let '(r', res, br) := run_merge m r in
  match br with
  | HookNotified =>
      (notify r < notify_capacity)%nat /\ notify r' = S (notify r) /\
      Some (Timestamp r') = merge_time m /\ lastBytes r' = marshal r' /\
      lastChecksum r' = option_map md5hex (marshal r')
  | HookPressure =>
      notify r' = notify r /\
      Some (Timestamp r') = merge_time m /\ lastBytes r' = marshal r' /\
      lastChecksum r' = option_map md5hex (marshal r')
  | _ => book r' = book r
  end.
Proof.
  pose proof (merge_candidate_spec m r) as Hs.
  destruct (merge_candidate m r) as [[ts r0]|] eqn:Em.
  - destruct Hs as [Hrun Hb]. rewrite Hrun.
    apply merge_candidate_time in Em. rewrite Em.
    pose proof (updateHook_cases ts r0) as Hc.
    pose proof (book_notify r r0 Hb) as Hn.
    destruct (updateHook ts r0) as [[r' res] br].
    destruct br; try (rewrite Hc; exact Hb).
    + destruct Hc as (H1 & H2 & H3 & H4 & H5 & _). rewrite <- Hn.
      repeat split; congruence.
    + destruct Hc as (H1 & _ & H3 & H4 & H5 & _). repeat split; congruence.
  - apply merge_candidate_none in Em.
    destruct (run_merge m r) as [[r' res] br]. simpl in Em. subst br. exact Hs.
Qed.

(** (X1) Every merge ([UpdateHTTP], [UpdateUDP], [UpdateJSON]) sends a value
    on the notification channel exactly when it reports [HookNotified], which
    it only does when the channel is empty; no merge ever takes a value out.
    So the channel, of capacity one, never holds more than one value. *)
Theorem merge_notify_accounting (m : Merge) (r : Report) :
  let '(r', res, br) := run_merge m r in
  notify r' = match br with HookNotified => S (notify r) | _ => notify r end /\
  (br = HookNotified -> notify r = 0%nat) /\
  ((notify r <= notify_capacity)%nat -> (notify r' <= notify_capacity)%nat).
Proof.
  pose proof (run_merge_cases m r) as Hc.
  destruct (run_merge m r) as [[r' res] br].
  unfold notify_capacity in *.
  destruct br;
    try (apply book_notify in Hc; rewrite Hc; split; [reflexivity|split; [discriminate|auto]]).
  - destruct Hc as (H1 & H2 & _). repeat split; [exact H2|lia|lia].
  - destruct Hc as (H1 & _). repeat split; [exact H1|discriminate|lia].
Qed.

(** (X2) A merge that reports [HookNotified] or [HookPressure] stamps the
    Report with the merge's event time ([ts] of the HTTP data or of the
    broadcast, [time.Now()] for [UpdateJSON]) and stores the serialization
    of the Report it leaves, and its digest, so [Report.JSON] returns the
    current state; any other outcome leaves the [Timestamp], the queue and
    the stored checksum and bytes as they were. *)
Theorem merge_bookkeeping (m : Merge) (r : Report) :
  let '(r', res, br) := run_merge m r in
  match br with
  | HookNotified | HookPressure =>
      Some (Timestamp r') = merge_time m /\ Report_JSON r' = marshal r' /\
      lastChecksum r' = option_map md5hex (Report_JSON r')
  | _ =>
      Timestamp r' = Timestamp r /\ notify r' = notify r /\
      lastChecksum r' = lastChecksum r /\ lastBytes r' = lastBytes r
  end.
Proof.
  pose proof (run_merge_cases m r) as Hc.
  destruct (run_merge m r) as [[r' res] br]. unfold Report_JSON.
  destruct br;
    try (unfold book in Hc; injection Hc as E1 E2 E3 E4 E5; repeat split; assumption).
  - destruct Hc as (_ & _ & H3 & H4 & H5). rewrite H4. auto.
  - destruct Hc as (_ & H3 & H4 & H5). rewrite H4. auto.
Qed.

(** (X3) Every Report the program can hold has its stored checksum equal
    to the digest of its stored bytes (both absent together) and at most one
    value in its notification channel. *)
Theorem reachable_bookkeeping (r : Report) :
  reachable r ->
  lastChecksum r = option_map md5hex (lastBytes r) /\ (notify r <= notify_capacity)%nat.
Proof.
  induction 1 as [v|m r _ [IH1 IH2]|r r' _ [IH1 IH2] Hc].
  - split; [reflexivity|unfold notify_capacity; simpl; lia].
  - pose proof (run_merge_cases m r) as Hc.
    pose proof (merge_notify_accounting m r) as Hn.
    destruct (run_merge m r) as [[r' res] br]. simpl fst.
    destruct Hn as (_ & _ & Hn). split; [|exact (Hn IH2)].
    destruct br;
      try (unfold book in Hc; injection Hc as E1 E2 E3 E4 E5; rewrite E4, E5; exact IH1).
    + destruct Hc as (_ & _ & _ & H4 & H5). rewrite H4. exact H5.
    + destruct Hc as (_ & _ & H4 & H5). rewrite H4. exact H5.
  - rewrite Copy_eq in Hc. destruct (marshal r); [|discriminate].
    injection Hc as <-. split; [exact IH1|unfold notify_capacity; simpl; lia].
Qed.

(** (X4) [Report.Copy] returns a Report with every exported field of the
    original, the [Timestamp] included, the same [verbose] flag, stored
    checksum and stored bytes, and an empty notification channel of its
    own; copying the copy gives the same Report again. *)
Theorem Copy_fields (r r' : Report) :
  Copy r = ROk r' ->
  DeviceID r' = DeviceID r /\ Timestamp r' = Timestamp r /\ num r' = num r /\
  tm r' = tm r /\ RXState r' = RXState r /\ TransBatteryFlag r' = TransBatteryFlag r /\
  verbose r' = verbose r /\ notify r' = 0%nat /\
  lastChecksum r' = lastChecksum r /\ lastBytes r' = lastBytes r /\
  Copy r' = ROk r'.
Proof.
  rewrite Copy_eq. destruct (marshal r) eqn:Hm; [|discriminate].
  intros H. injection H as <-.
  repeat split; try reflexivity.
  rewrite Copy_eq.
  change (marshal (set_last (lastChecksum r) (lastBytes r) (with_data r (NewReport (verbose r)))))
    with (marshal r).
  rewrite Hm. reflexivity.
Qed.

(** (X5) [Decode(Encode(r))] into a Report [t], for a Report [r] the
    program holds: when [r] has no stored bytes (no content change was ever
    recorded, a fresh Report for one) it fails with the JSON syntax error of
    the empty payload and leaves [t] unchanged; otherwise it returns [nil],
    provided [t]'s own [Timestamp] can be serialized. *)
Theorem Decode_Encode_result (now : Z) (r t : Report) :
  reachable r -> time_marshalable (Timestamp t) = true ->
  match lastBytes r with
  | None => Decode now (Encode r) t = (t, GoErr err_json_syntax, HookNotRun)
  | Some _ => snd (fst (Decode now (Encode r) t)) = GoOk
  end.
Proof.
  intros Hr Ht. unfold Decode, Encode.
  destruct (lastBytes r) as [b|] eqn:Hb; [|reflexivity].
  destruct (reachable_stored_ok r Hr b Hb) as (r0 & Hm & _ & _).
  unfold UpdateJSON. rewrite (unmarshal_marshal r0 (NewReport false) b Hm).
  apply updateHook_ok.
  set (r1 := set_health (RXState (with_data r0 (NewReport false)))
               (TransBatteryFlag (with_data r0 (NewReport false)))
               (set_meas (num (with_data r0 (NewReport false)))
                  (tm (with_data r0 (NewReport false)))
                  (set_DeviceID (DeviceID (with_data r0 (NewReport false))) t))).
  destruct (marshal_ok r0 r1 b Hm eq_refl Ht) as [b' Hb'].
  unfold checksum. rewrite Hb'. discriminate.
Qed.

(** ** What [ParseHTTP] returns, and the HTTP event loop *)

Lemma dbind_ok {A B} (m : dres A) (k : A -> dres B) (b : B) (e : option string) :
  dbind m k = DOk b e -> exists a e1 e2, m = DOk a e1 /\ k a = DOk b e2.
Proof.
  destruct m as [a e1| |]; simpl; [|discriminate|discriminate].
  destruct (k a) as [b' e2| |] eqn:Ek; [|discriminate|discriminate].
  intros H. injection H as <- _. eauto.
Qed.

Lemma fold_dbind_inv {A} (P : A -> Prop) (field : A -> string -> json -> dres A)
    (Hf : forall a k v a' e', P a -> field a k v = DOk a' e' -> P a') :
  forall kvs acc,
    match acc with DOk a _ => P a | _ => True end ->
    match fold_left (fun acc kv => dbind acc (fun a => field a (fst kv) (snd kv))) kvs acc with
    | DOk a _ => P a | _ => True
    end.
Proof.
  induction kvs as [|[k v] kvs IH]; intros acc Hacc; [exact Hacc|].
  simpl. apply IH.
  destruct (dbind acc _) as [a' e'| |] eqn:E; [|exact I|exact I].
  apply dbind_ok in E as (a & e1 & e2 & -> & Ek). simpl in Ek.
  exact (Hf _ _ _ _ _ Hacc Ek).
Qed.

(** A property kept by every member decoding of a struct holds of the
    decoded struct. *)
Lemma dec_object_inv {A} (P : A -> Prop) (field : A -> string -> json -> dres A)
    (old : A) (j : json) (a : A) (e : option string) :
  (forall a k v a' e', P a -> field a k v = DOk a' e' -> P a') ->
  P old -> dec_object field old j = DOk a e -> P a.
Proof.
  intros Hf Hold. unfold dec_object.
  destruct j as [| | | | |kvs]; try (intros H; injection H as <- _; exact Hold).
  intros H. pose proof (fold_dbind_inv P field Hf kvs (DOk old None) Hold) as Hi.
  rewrite H in Hi. exact Hi.
Qed.

Lemma dec_elems_inv {A} (P : A -> Prop) (dec : A -> json -> dres A) (zero : A) (old : list A) :
  (forall a j a' e', dec a j = DOk a' e' -> P a') ->
  forall xs i l e, dec_elems dec zero old i xs = DOk l e -> Forall P l.
Proof.
  intros Hd. induction xs as [|x xs IH]; intros i l e; simpl.
  - intros H. injection H as <- _. constructor.
  - intros H. apply dbind_ok in H as (a & e1 & e2 & Ha & H).
    apply dbind_ok in H as (rest & e3 & e4 & Hr & H). injection H as <- _.
    constructor; [exact (Hd _ _ _ _ Ha)|exact (IH _ _ _ Hr)].
Qed.

Lemma dec_slice_inv {A} (P : A -> Prop) (dec : A -> json -> dres A) (zero : A)
    (old : list A) (j : json) (l : list A) (e : option string) :
  (forall a j a' e', dec a j = DOk a' e' -> P a') ->
  Forall P old -> dec_slice dec zero old j = DOk l e -> Forall P l.
Proof.
  intros Hd Hold. unfold dec_slice.
  destruct j as [| | | |xs|]; try (intros H; injection H as <- _; first [exact Hold|constructor]).
  apply dec_elems_inv. exact Hd.
Qed.

Lemma dec_EntryHTTP_typed (e : Parser.EntryHTTP) (j : json) (e' : Parser.EntryHTTP)
    (sv : option string) :
  Parser.dec_EntryHTTP e j = DOk e' sv -> entry_typed e'.
Proof.
  unfold Parser.dec_EntryHTTP.
  destruct (Unmarshal Parser.dec_conditionHeader _ j) as [c| |]; try discriminate.
  destruct (Parser.hd_DataStructureType c) as [s|]; [|discriminate].
  destruct (Z.eqb s Parser.RecordISS) eqn:E1;
    [|destruct (Z.eqb s Parser.RecordLSSBarometer) eqn:E2;
      [|destruct (Z.eqb s Parser.RecordLSSTempRh) eqn:E3; [|discriminate]]];
    match goal with |- context [Unmarshal ?d ?z j] => destruct (Unmarshal d z j) end;
    simpl; try discriminate;
    intros H; injection H as <- _; unfold entry_typed; simpl; apply Z.eqb_eq; assumption.
Qed.

Lemma dec_WeatherHTTP_typed (w : Parser.WeatherHTTP) (j : json) (w' : Parser.WeatherHTTP)
    (sv : option string) :
  Forall entry_typed (Parser.wh_Conditions w) ->
  Parser.dec_WeatherHTTP w j = DOk w' sv -> Forall entry_typed (Parser.wh_Conditions w').
Proof.
  apply (dec_object_inv (fun w => Forall entry_typed (Parser.wh_Conditions w))).
  intros a k v a' e' Ha.
  destruct (String.eqb k "did"); [|destruct (String.eqb k "ts"); [|destruct (String.eqb k "conditions")]].
  - intros H. apply dbind_ok in H as (x & e1 & e2 & Hx & H). injection H as <- _. exact Ha.
  - intros H. apply dbind_ok in H as (x & e1 & e2 & Hx & H). injection H as <- _. exact Ha.
  - intros H. apply dbind_ok in H as (x & e1 & e2 & Hx & H). injection H as <- _.
    exact (dec_slice_inv entry_typed _ _ _ _ _ _ dec_EntryHTTP_typed Ha Hx).
  - intros H. injection H as <- _. exact Ha.
Qed.

(** Every condition record of a batch [ParseHTTP] accepts holds the
    [Values] struct its [data_structure_type] names. *)
Lemma ParseHTTP_typed (j : json) (c : Parser.ConditionsHTTP) (d : Parser.WeatherHTTP) :
  Parser.ParseHTTP j = ROk c -> Parser.ch_Data c = Some d ->
  Forall entry_typed (Parser.wh_Conditions d).
Proof.
  unfold Parser.ParseHTTP, Unmarshal.
  set (P := fun c : Parser.ConditionsHTTP =>
              match Parser.ch_Data c with
              | Some d => Forall entry_typed (Parser.wh_Conditions d)
              | None => True
              end).
  assert (HP : forall sv, Parser.dec_ConditionsHTTP Parser.zero_ConditionsHTTP j = DOk c sv -> P c).
  { intros sv. apply dec_object_inv; [|exact I].
    intros a k v a' e' Ha.
    destruct (String.eqb k "data"); [|destruct (String.eqb k "error")].
    - intros H. apply dbind_ok in H as (x & e1 & e2 & Hx & H). injection H as <- _.
      unfold P; simpl. unfold dec_ptr in Hx.
      destruct v; try (injection Hx as <- _; exact I);
        apply dbind_ok in Hx as (w & e3 & e4 & Hw & Hx); injection Hx as <- _;
        refine (dec_WeatherHTTP_typed _ _ _ _ _ Hw);
        (unfold P in Ha; destruct (Parser.ch_Data a); [exact Ha|apply Forall_nil]).
    - intros H. apply dbind_ok in H as (x & e1 & e2 & Hx & H). injection H as <- _. exact Ha.
    - intros H. injection H as <- _. exact Ha. }
  destruct (Parser.dec_ConditionsHTTP _ j) as [c' [e|]| |] eqn:E; try discriminate.
  intros H Hd. injection H as <-. specialize (HP None eq_refl). unfold P in HP.
  rewrite Hd in HP. exact HP.
Qed.

(** The conditions loop of [UpdateHTTP] does not panic on well-typed
    records. *)
Lemma process_conditions_typed (cs : list Parser.EntryHTTP) (r : Report) :
  Forall entry_typed cs -> snd (process_conditions cs r) = false.
Proof.
  intros H. revert r. induction H as [|c cs Hc _ IH]; intros r; [reflexivity|].
  unfold entry_typed in Hc. simpl.
  destruct (Parser.eh_DataStructureType c) as [s|]; [|contradiction].
  destruct (Parser.eh_Values c) as [|v|v|v]; [contradiction| | |]; subst s; simpl; apply IH.
Qed.

(** (X6) One iteration of [httpEventLoop] ends the program in a panic
    exactly when [ParseHTTP] panics on the body, or when the body parses
    without an error object but lacks the [data] object or its [ts]: the
    type switch of [UpdateHTTP] never fails on what [ParseHTTP] returns. *)
Theorem httpEventLoop_panic (transport : option json) (r : Report) :
  snd (httpEventLoop_step transport r) = GoPanic <->
  exists body, transport = Some body /\
    (Parser.ParseHTTP body = RPanic \/
     exists c, Parser.ParseHTTP body = ROk c /\ Parser.ch_Error c = None /\
       (Parser.ch_Data c = None \/
        exists d, Parser.ch_Data c = Some d /\ Parser.wh_Timestamp d = None)).
Proof.
  unfold httpEventLoop_step, fetchConditionsHTTP.
  destruct transport as [body|].
  2:{ split; [discriminate|]. intros (b & H & _). discriminate. }
  destruct (Parser.ParseHTTP body) as [c|e|] eqn:Ep.
  - destruct (Parser.ch_Error c) as [er|] eqn:Ee.
    { split; [discriminate|].
      intros (b & Hb & [H|(c' & H & He & _)]); injection Hb as Hb; subst b;
        rewrite Ep in H; [discriminate|].
      injection H as <-. congruence. }
    unfold UpdateHTTP. rewrite Ee.
    destruct (Parser.ch_Data c) as [d|] eqn:Ed.
    2:{ split; [intros _|reflexivity]. exists body. split; [reflexivity|].
        right. exists c. auto. }
    pose proof (process_conditions_typed (Parser.wh_Conditions d)
                  (set_DeviceID (Parser.wh_DeviceID d) r)
                  (ParseHTTP_typed body c d Ep Ed)) as Hpc.
    destruct (process_conditions _ _) as [r2 p]. simpl in Hpc. subst p.
    destruct (Parser.wh_Timestamp d) as [ts|] eqn:Ets.
    + pose proof (updateHook_no_panic ts r2) as Hn.
      destruct (updateHook ts r2) as [[r' res] br]. simpl in Hn |- *.
      split; [intros H; contradiction|].
      intros (b & Hb & [H|(c' & H & _ & [Hd|(d' & Hd & Ht)])]);
        injection Hb as Hb; subst b; rewrite Ep in H; [discriminate| |];
        injection H as <-; congruence.
    + split; [intros _|reflexivity]. exists body. split; [reflexivity|].
      right. exists c. split; [exact Ep|]. split; [exact Ee|]. right. eauto.
  - split; [discriminate|].
    intros (b & Hb & [H|(c' & H & _)]); injection Hb as Hb; subst b; congruence.
  - split; [intros _|reflexivity]. exists body. auto.
Qed.

(** (X7) An iteration of [httpEventLoop] that logs an error leaves the
    Report as it was, unless the error is the serialization error of
    [updateHook]: then the body parsed into conditions with data and a
    [ts], the Report is the merge of those conditions ([DeviceID] and the
    records) into the old one, one of its times lies outside the years 0 to
    9999, and its [Timestamp], queue, stored checksum and bytes are the old
    ones. *)
Theorem httpEventLoop_error (transport : option json) (r r' : Report) (e : string) :
  httpEventLoop_step transport r = (r', GoErr e) ->
  r' = r \/
  (e = err_marshal /\ book r' = book r /\ times_marshalable r' = false /\
   exists c d ts, fetchConditionsHTTP transport = ROk c /\ Parser.ch_Data c = Some d /\
     Parser.wh_Timestamp d = Some ts /\
     process_conditions (Parser.wh_Conditions d) (set_DeviceID (Parser.wh_DeviceID d) r)
       = (r', false)).
Proof.
  unfold httpEventLoop_step.
  destruct (fetchConditionsHTTP transport) as [c|e'|] eqn:Ef.
  2:{ intros H. injection H as <- _. left. reflexivity. }
  2:{ discriminate. }
  assert (He : Parser.ch_Error c = None).
  { unfold fetchConditionsHTTP in Ef. destruct transport as [body|]; [|discriminate].
    destruct (Parser.ParseHTTP body) as [c'| |]; try discriminate.
    destruct (Parser.ch_Error c') eqn:E; [discriminate|]. injection Ef as <-. exact E. }
  pose proof (merge_candidate_spec (MergeHTTP c) r) as Hs.
  unfold merge_candidate, run_merge in Hs. unfold UpdateHTTP in Hs |- *. rewrite He in Hs |- *.
  destruct (Parser.ch_Data c) as [d|] eqn:Ed; [|discriminate].
  destruct (process_conditions _ _) as [r2 []] eqn:Ep; [discriminate|].
  destruct (Parser.wh_Timestamp d) as [ts|] eqn:Et; [|discriminate].
  destruct Hs as [_ Hb].
  unfold updateHook.
  destruct (checksum r2) as [[ck b]|] eqn:Ec.
  - destruct (_ || _); [discriminate|].
    destruct (negb _); [|discriminate].
    destruct (checksum (set_Timestamp ts r2)) as [[c1 b1]|];
      destruct (Nat.ltb _ _); discriminate.
  - intros H. injection H as <- <-. right.
    split; [reflexivity|]. split; [exact Hb|]. split; [apply checksum_times; exact Ec|].
    exists c, d, ts. auto.
Qed.

Lemma fold_dbind_panic {A} (g : string * json -> A -> dres A) (kvs : list (string * json)) :
  fold_left (fun acc kv => dbind acc (g kv)) kvs DPanic = DPanic.
Proof. induction kvs as [|kv kvs IH]; [reflexivity|exact IH]. Qed.

Lemma fold_dbind_err {A} (g : string * json -> A -> dres A) (kvs : list (string * json))
    (e : string) :
  fold_left (fun acc kv => dbind acc (g kv)) kvs (DErr e) = DErr e.
Proof. induction kvs as [|kv kvs IH]; [reflexivity|exact IH]. Qed.

Lemma dbind_panic {A B} (m : dres A) (k : A -> dres B) : m = DPanic -> dbind m k = DPanic.
Proof. intros ->. reflexivity. Qed.

(** Decoding an object whose members are [pre], then [k : v], then [post]:
    the members of [pre] first, then [k], then the rest. *)
Lemma dec_object_app_cons {A} (field : A -> string -> json -> dres A) (old : A)
    (pre : list (string * json)) (k : string) (v : json) (post : list (string * json)) :
  dec_object field old (JObj (pre ++ (k, v) :: post)) =
  fold_left (fun acc kv => dbind acc (fun a => field a (fst kv) (snd kv))) post
    (dbind (dec_object field old (JObj pre)) (fun a => field a k v)).
Proof. unfold dec_object. rewrite fold_left_app. reflexivity. Qed.

(** A member whose decoding panics, after members decoded without a hard
    error, makes the whole object panic; an earlier hard error or panic
    is the result instead. *)
Lemma dec_object_member_panic {A} (field : A -> string -> json -> dres A) (old : A)
    (pre : list (string * json)) (k : string) (v : json) (post : list (string * json)) :
  (forall a, field a k v = DPanic) ->
  dec_object field old (JObj (pre ++ (k, v) :: post)) =
  match dec_object field old (JObj pre) with DErr e => DErr e | _ => DPanic end.
Proof.
  intros H. rewrite dec_object_app_cons.
  destruct (dec_object field old (JObj pre)) as [a s|e|].
  - cbn [dbind]. rewrite H. apply fold_dbind_panic.
  - apply fold_dbind_err.
  - apply fold_dbind_panic.
Qed.

Lemma dec_object_member_err {A} (field : A -> string -> json -> dres A) (old : A)
    (pre : list (string * json)) (k : string) (v : json) (post : list (string * json))
    (e : string) :
  (forall a, field a k v = DErr e) ->
  dec_object field old (JObj (pre ++ (k, v) :: post)) =
  match dec_object field old (JObj pre) with DPanic => DPanic | DErr e' => DErr e' | _ => DErr e end.
Proof.
  intros H. rewrite dec_object_app_cons.
  destruct (dec_object field old (JObj pre)) as [a s|e'|].
  - cbn [dbind]. rewrite H. apply fold_dbind_err.
  - apply fold_dbind_err.
  - apply fold_dbind_panic.
Qed.

(** (X8) [ParseHTTP] never succeeds on a payload whose [data.conditions]
    array starts with a record that decodes without a
    [data_structure_type] (missing or [null]): it panics, as
    [EntryHTTP.UnmarshalJSON] dereferences the nil pointer, unless a member
    decoded before (before [data] in the payload, or before [conditions] in
    [data]) ends the decoding first with its hard error or panic. *)
Theorem ParseHTTP_missing_type_panics (x : json) (h : Parser.conditionHeader)
    (xs : list json) (pre dpre rest more : list (string * json)) :
  Unmarshal Parser.dec_conditionHeader (Parser.mkHeader None None) x = ROk h ->
  Parser.hd_DataStructureType h = None ->
  Parser.ParseHTTP
    (JObj (pre ++ ("data", JObj (dpre ++ ("conditions", JArr (x :: xs)) :: rest)) :: more)) =
  match Parser.dec_ConditionsHTTP Parser.zero_ConditionsHTTP (JObj pre) with
  | DOk c _ =>
      match Parser.dec_WeatherHTTP
              (match Parser.ch_Data c with Some w => w | None => Parser.zero_WeatherHTTP end)
              (JObj dpre) with
      | DErr e => RErr e
      | _ => RPanic
      end
  | DErr e => RErr e
  | DPanic => RPanic
  end.
Proof.
  intros Hh Ht.
  assert (Hw : forall w0, Parser.dec_WeatherHTTP w0
                 (JObj (dpre ++ ("conditions", JArr (x :: xs)) :: rest)) =
               match Parser.dec_WeatherHTTP w0 (JObj dpre) with
               | DErr e => DErr e | _ => DPanic end).
  { intros w0. unfold Parser.dec_WeatherHTTP. apply dec_object_member_panic.
    intros w. cbv beta. change (String.eqb "conditions" "did") with false.
    change (String.eqb "conditions" "ts") with false.
    rewrite String.eqb_refl. apply dbind_panic.
    unfold dec_slice, dec_elems. apply dbind_panic.
    unfold Parser.dec_EntryHTTP. rewrite Hh, Ht. reflexivity. }
  unfold Parser.ParseHTTP, Unmarshal, Parser.dec_ConditionsHTTP.
  rewrite dec_object_app_cons.
  destruct (dec_object _ Parser.zero_ConditionsHTTP (JObj pre)) as [c s|e|].
  - cbn [dbind]. cbv beta. rewrite String.eqb_refl. unfold dec_ptr. rewrite Hw.
    destruct (Parser.dec_WeatherHTTP _ (JObj dpre)) as [w s'|e|];
      cbn [dbind]; first [rewrite fold_dbind_err | rewrite fold_dbind_panic]; reflexivity.
  - cbn [dbind]. rewrite fold_dbind_err. reflexivity.
  - cbn [dbind]. rewrite fold_dbind_panic. reflexivity.
Qed.

(** ** The UDP event loop and the lease watchdog *)

(** (X9) When the UDP loop receives, at time [t], a broadcast that
    [ParseUDP] accepts and [UpdateUDP] merges without error (also into a
    Report that is not ready, which it neither stamps nor notifies), it sets
    the last-reported time to [t]; a watchdog tick up to [udpDeadline] later
    then sends no lease request and changes nothing. A broadcast that fails
    to parse, or that [UpdateUDP] rejects, leaves the last-reported time as
    it was. *)
Theorem udp_receive_watchdog (t now : Z) (p : json) (c : Client) (tr : option json) :
  let c' := fst (udpEventLoop_step t (UdpDatagram p) c) in
  udpPort c' = udpPort c /\
  match Parser.ParseUDP p with
  | ROk cond =>
      match snd (fst (UpdateUDP cond (report c))) with
      | GoOk =>
          udpLastReported c' = t /\
          ((now - t <= udpDeadline)%Z -> udpWatchdog_tick now tr c' = (c', [], GoOk))
      | _ => udpLastReported c' = udpLastReported c
      end
  | _ => c' = c
  end.
Proof.
  unfold udpEventLoop_step.
  destruct (Parser.ParseUDP p) as [cond| |]; [|split; reflexivity|split; reflexivity].
  destruct (UpdateUDP cond (report c)) as [[r' res] br].
  destruct res; simpl; (split; [reflexivity|]); try reflexivity.
  split; [reflexivity|]. intros Hd.
  unfold udpWatchdog_tick. simpl.
  replace (udpDeadline <? now - t)%Z with false by (symmetry; apply Z.ltb_ge; exact Hd).
  reflexivity.
Qed.

(** ** Locating the unit *)

Lemma string_append_assoc (a b c : string) : (a ++ b) ++ c = a ++ (b ++ c).
Proof. induction a as [|x a IH]; simpl; [reflexivity|rewrite IH; reflexivity]. Qed.

Lemma string_append_nil_r (a : string) : a ++ "" = a.
Proof. induction a as [|x a IH]; simpl; [reflexivity|rewrite IH; reflexivity]. Qed.

Lemma prefix_spec (s1 s2 : string) : prefix s1 s2 = true <-> exists post, s2 = s1 ++ post.
Proof.
  revert s2. induction s1 as [|a s1 IH]; intros s2.
  - split; [intros _; exists s2; reflexivity|intros _; destruct s2; reflexivity].
  - destruct s2 as [|b s2]; simpl.
    + split; [discriminate|intros (post & H); discriminate].
    + destruct (Ascii.ascii_dec a b) as [->|n].
      * rewrite IH. split; intros (post & H); exists post; congruence.
      * split; [discriminate|intros (post & H); congruence].
Qed.

(** [Contains s substr] holds exactly when [substr] occurs in [s]. *)
Lemma Contains_spec (s substr : string) :
  Contains s substr = true <-> exists pre post, s = pre ++ substr ++ post.
Proof.
  induction s as [|a s IH].
  - change (Contains "" substr) with (prefix substr "" || false).
    rewrite orb_false_r, prefix_spec. split.
    + intros (post & H). exists "", post. exact H.
    + intros (pre & post & H). destruct pre as [|c pre]; [|discriminate].
      exists post. exact H.
  - change (Contains (String a s) substr) with (prefix substr (String a s) || Contains s substr).
    rewrite orb_true_iff, prefix_spec, IH. split.
    + intros [(post & H)|(pre & post & H)].
      * exists "", post. exact H.
      * exists (String a pre), post. rewrite H. reflexivity.
    + intros (pre & post & H). destruct pre as [|c pre].
      * left. exists post. exact H.
      * right. exists pre, post. simpl in H. congruence.
Qed.

Section Net_facts.

Variable IP : Type.
Variable ParseIP : string -> option IP.
Variable is_ipv4 : IP -> bool.
Variable ip_string : IP -> string.

(** (X10) [Unmanaged] refuses an empty hostname with [errInvalidHostname].
    Otherwise it returns a client in the state [Managed] starts from, and a
    unit whose URLs use port 80 when the given port is not positive, the
    address as [net.IP] prints it for an IP address (in brackets for IPv6),
    and the hostname itself for a name. *)
Theorem Unmanaged_urls (v : bool) (hostname : string) (port : Z) :
  let p := if (port <=? 0)%Z then clientDefaultPort else port in
  let host := match ParseIP hostname with
              | None => hostname
              | Some ip => if is_ipv4 ip then ip_string ip else "[" ++ ip_string ip ++ "]"
              end in
  match Unmanaged ParseIP is_ipv4 v hostname port with
  | RErr e => hostname = "" /\ e = errInvalidHostname
  | ROk (c, u) =>
      hostname <> "" /\ c = Managed v /\
      conditionsURL ip_string u =
        "http://" ++ host ++ ":" ++ fmt_d p ++ "/v1/current_conditions" /\
      broadcastURL ip_string u =
        "http://" ++ host ++ ":" ++ fmt_d p ++ "/v1/real_time?duration=14400"
  | RPanic => False
  end.
Proof.
  unfold Unmanaged. destruct (String.eqb hostname "") eqn:Eh.
  { apply String.eqb_eq in Eh. auto. }
  apply String.eqb_neq in Eh.
  split; [exact Eh|]. split; [reflexivity|].
  unfold conditionsURL, broadcastURL, GetURL.
  destruct (ParseIP hostname) as [ip|].
  - destruct (is_ipv4 ip); cbn [AddrIPv6 AddrIPv4 Port HostName];
      rewrite ?string_append_assoc; split; reflexivity.
  - cbn [AddrIPv6 AddrIPv4 Port HostName].
    replace (String.eqb hostname "") with false by (symmetry; apply String.eqb_neq; exact Eh).
    rewrite ?string_append_assoc; split; reflexivity.
Qed.

(** (X11) [mDNSLoop] takes the first responder whose instance name contains
    [_weatherlinklive]: the client's unit becomes that entry and
    [mDNSInterval] its TTL in seconds, and [done] then [resolved] are called
    once each; responders after it are not read. When no responder matches,
    the unit and the interval are left as they were and neither function is
    called. *)
Theorem mDNSLoop_first_match (unit : option (wllUnit IP)) (interval : Z)
    (rs : list (ServiceEntry IP)) :
  mDNSLoop unit interval rs =
    match find (fun r => Contains (Instance r) mDNSInstance) rs with
    | Some r => (Some r, TTL r * 1000000000, [CallDone; CallResolved])%Z
    | None => (unit, interval, [])
    end /\
  (snd (mDNSLoop unit interval rs) = [CallDone; CallResolved] <->
   exists r, In r rs /\ exists pre post, Instance r = pre ++ mDNSInstance ++ post).
Proof.
  assert (Hl : mDNSLoop unit interval rs =
    match find (fun r => Contains (Instance r) mDNSInstance) rs with
    | Some r => (Some r, TTL r * 1000000000, [CallDone; CallResolved])%Z
    | None => (unit, interval, [])
    end).
  { induction rs as [|r rs IH]; [reflexivity|]. simpl.
    destruct (Contains (Instance r) mDNSInstance); [reflexivity|exact IH]. }
  split; [exact Hl|]. rewrite Hl.
  destruct (find _ rs) as [r|] eqn:Ef.
  - cbn [snd]. split; [intros _|reflexivity].
    apply find_some in Ef as [Hin Hc]. apply Contains_spec in Hc. eauto.
  - cbn [snd]. split; [discriminate|].
    intros (r & Hin & Hc). apply Contains_spec in Hc.
    pose proof (find_none _ _ Ef r Hin) as Hn. congruence.
Qed.

End Net_facts.

(** ** The record handlers of the merges *)

(** (X12) The handlers of [UpdateHTTP]'s type switch each write only the
    fields of their record type, every one of them ([null] included):
    [processISS] never changes a barometer or indoor field;
    [processLSSBarometer] writes exactly the three barometer fields and
    [processLSSTempRh] the four indoor fields, neither touching the times
    nor the receiver-health fields. None of them changes [DeviceID],
    [Timestamp] or the bookkeeping fields. *)
Theorem record_handlers_frame (v : Parser.WeatherISS) (m : Meas) (r : Report) :
  let a := processISS v r in
  let b := processLSSBarometer m r in
  let c := processLSSTempRh m r in
  (forall f, Parser.iss_num_tag f = None -> num a f = num r f) /\
  (forall f, num b f = match Parser.baro_num_tag f with Some _ => m_num m f | None => num r f end) /\
  tm b = tm r /\ RXState b = RXState r /\ TransBatteryFlag b = TransBatteryFlag r /\
  (forall f, num c f = match Parser.temprh_num_tag f with Some _ => m_num m f | None => num r f end) /\
  tm c = tm r /\ RXState c = RXState r /\ TransBatteryFlag c = TransBatteryFlag r /\
  DeviceID a = DeviceID r /\ book a = book r /\
  DeviceID b = DeviceID r /\ book b = book r /\
  DeviceID c = DeviceID r /\ book c = book r.
Proof.
  cbv zeta.
  repeat split; try reflexivity.
  intros f Hf. unfold processISS, apply_meas, set_health, set_meas. cbn [num].
  rewrite Hf. reflexivity.
Qed.

(** (X13) [processISS] maps [rx_state] 0, 1, 2 to [Synced], [Rescan],
    [Lost] and [trans_battery_flag] 0, 1 to [Nominal], [Warning]; a null or
    any other code leaves the previous state. Every outdoor measurement
    field of the ISS record is written, a [null] one clearing the field,
    while a [null] storm time keeps the previous time. *)
Theorem processISS_values (v : Parser.WeatherISS) (r : Report) :
  let r' := processISS v r in
  RXState r' = match Parser.iss_RXState v with
               | Some 0%Z => "Synced" | Some 1%Z => "Rescan" | Some 2%Z => "Lost"
               | _ => RXState r
               end /\
  TransBatteryFlag r' = match Parser.iss_TransBatteryFlag v with
                        | Some 0%Z => "Nominal" | Some 1%Z => "Warning"
                        | _ => TransBatteryFlag r
                        end /\
  (forall f, Parser.iss_num_tag f <> None -> num r' f = m_num (Parser.iss_meas v) f) /\
  (forall t, tm r' t = match m_tm (Parser.iss_meas v) t with
                       | Some x => Some x
                       | None => tm r t
                       end).
Proof.
  cbv zeta. unfold processISS. repeat split.
  - cbn [RXState set_health].
    destruct (Parser.iss_RXState v) as [[|[p|p|]|p]|]; try reflexivity.
    destruct p; reflexivity.
  - cbn [TransBatteryFlag set_health].
    destruct (Parser.iss_TransBatteryFlag v) as [[|[p|p|]|p]|]; reflexivity.
  - intros f Hf. unfold apply_meas, set_health, set_meas. cbn [num].
    destruct (Parser.iss_num_tag f); [reflexivity|congruence].
  - intros t. unfold apply_meas, set_health, set_meas. cbn [tm].
    destruct t; reflexivity.
Qed.

Lemma udp_fold_fields (cs : list Parser.EntryUDP) (r : Report) :
  let r' := fold_left (fun acc c => udp_entry c acc) cs r in
  (forall f, Parser.udp_num_tag f <> None ->
     num r' f = match rev cs with e :: _ => m_num (Parser.eu_meas e) f | [] => num r f end) /\
  tm r' RainStormStartAt =
    match find (fun e => match m_tm (Parser.eu_meas e) RainStormStartAt with
                         | Some _ => true | None => false end) (rev cs) with
    | Some e => m_tm (Parser.eu_meas e) RainStormStartAt
    | None => tm r RainStormStartAt
    end.
Proof.
  cbv zeta. induction cs as [|e cs IH] using rev_ind; [split; reflexivity|].
  rewrite fold_left_app, rev_app_distr. cbn [fold_left rev app].
  destruct IH as [IH1 IH2]. split.
  - intros f Hf. unfold udp_entry, apply_meas, set_meas. cbn [num].
    destruct (Parser.udp_num_tag f); [reflexivity|congruence].
  - unfold udp_entry at 1, apply_meas, set_meas. cbn [tm find Parser.udp_time_tag].
    destruct (m_tm (Parser.eu_meas e) RainStormStartAt) eqn:E; [rewrite E; reflexivity|exact IH2].
Qed.

(** (X14) When a broadcast holds several records, [UpdateUDP] leaves in
    every field a UDP record has the value of the last record, [null]
    included; the storm start time is the one of the last record that has
    one, and the previous one when none has. *)
Theorem UpdateUDP_last_record (new : Parser.ConditionsUDP) (r : Report) :
  let cs := Parser.cu_Conditions new in
  let r' := fst (fst (UpdateUDP new r)) in
  (forall f, Parser.udp_num_tag f <> None ->
     num r' f = match rev cs with e :: _ => m_num (Parser.eu_meas e) f | [] => num r f end) /\
  tm r' RainStormStartAt =
    match find (fun e => match m_tm (Parser.eu_meas e) RainStormStartAt with
                         | Some _ => true | None => false end) (rev cs) with
    | Some e => m_tm (Parser.eu_meas e) RainStormStartAt
    | None => tm r RainStormStartAt
    end.
Proof.
  cbv zeta.
  destruct (udp_fold_fields (Parser.cu_Conditions new) (set_DeviceID (Parser.cu_DeviceID new) r))
    as [H1 H2].
  cbv zeta in H1, H2.
  assert (E : forall x : Report, num x = num (fold_left (fun acc c => udp_entry c acc)
                 (Parser.cu_Conditions new) (set_DeviceID (Parser.cu_DeviceID new) r)) ->
             tm x = tm (fold_left (fun acc c => udp_entry c acc)
                 (Parser.cu_Conditions new) (set_DeviceID (Parser.cu_DeviceID new) r)) ->
             (forall f, Parser.udp_num_tag f <> None ->
                num x f = match rev (Parser.cu_Conditions new) with
                          | e :: _ => m_num (Parser.eu_meas e) f | [] => num r f end) /\
             tm x RainStormStartAt =
               match find (fun e => match m_tm (Parser.eu_meas e) RainStormStartAt with
                                    | Some _ => true | None => false end)
                      (rev (Parser.cu_Conditions new)) with
               | Some e => m_tm (Parser.eu_meas e) RainStormStartAt
               | None => tm r RainStormStartAt
               end).
  { intros x Hn Ht. rewrite Hn, Ht. split; [exact H1|exact H2]. }
  unfold UpdateUDP. destruct (Parser.cu_Timestamp new) as [ts|].
  - destruct (updateHook_data ts (fold_left (fun acc c => udp_entry c acc)
                 (Parser.cu_Conditions new) (set_DeviceID (Parser.cu_DeviceID new) r)))
      as (_ & Hn & Ht & _).
    exact (E _ Hn Ht).
  - exact (E _ eq_refl eq_refl).
Qed.

(** (X15) [ParseUDP] never succeeds on a broadcast whose [ts] member is a
    quoted string, a boolean, an array, an object or an integer outside the
    [int64] range: [Time.UnmarshalJSON] accepts only integral literals, and
    its error ends the decoding at once. The result is the
    [strconv.ParseInt] error, unless a member before [ts] ended the decoding
    first with its own hard error or panic. *)
Theorem ParseUDP_bad_ts (pre : list (string * json)) (v : json) (more : list (string * json)) :
  match v with
  | JNull => False
  | JNum z => (z < int64_min \/ int64_max < z)%Z
  | _ => True
  end ->
  Parser.ParseUDP (JObj (pre ++ ("ts", v) :: more)) =
  match Parser.dec_ConditionsUDP Parser.zero_ConditionsUDP (JObj pre) with
  | DOk _ _ => RErr err_parseint
  | DErr e => RErr e
  | DPanic => RPanic
  end.
Proof.
  intros Hv.
  assert (Ht : forall old, dec_time old v = DErr err_parseint).
  { intros old. unfold dec_time. destruct v as [| |z| | |]; try reflexivity; [contradiction|].
    replace ((int64_min <=? z)%Z && (z <=? int64_max)%Z) with false; [reflexivity|].
    symmetry. apply andb_false_iff.
    destruct Hv as [Hv|Hv]; [left; apply Z.leb_gt; exact Hv|right; apply Z.leb_gt; exact Hv]. }
  unfold Parser.ParseUDP, Unmarshal, Parser.dec_ConditionsUDP.
  rewrite (dec_object_member_err _ _ _ _ _ _ err_parseint).
  - destruct (dec_object _ Parser.zero_ConditionsUDP (JObj pre)); reflexivity.
  - intros c. cbv beta. change (String.eqb "ts" "did") with false. rewrite String.eqb_refl.
    cbv iota. rewrite Ht. reflexivity.
Qed.

(** ** Witnesses *)

Lemma reachable_bookkeeping_witness :
  let r := fst (fst (UpdateHTTP (decoded_http (http_payload_iss_baro 1600000000))
                       (NewReport false))) in
  lastChecksum r = option_map md5hex (lastBytes r) /\ (notify r <= notify_capacity)%nat.
Proof.
  apply reachable_bookkeeping.
  exact (reachable_merge (MergeHTTP (decoded_http (http_payload_iss_baro 1600000000)))
           (NewReport false) (reachable_new false)).
Defined.

Lemma Copy_fields_witness :
  let r := fst (fst (UpdateHTTP (decoded_http (http_payload_iss_baro 1600000000))
                       (NewReport false))) in
  let r' := match Copy r with ROk x => x | _ => NewReport false end in
  Timestamp r' = Timestamp r /\ notify r' = 0%nat /\ lastBytes r' = lastBytes r.
Proof.
  intros r r'.
  assert (H : Copy r = ROk r') by (vm_compute; reflexivity).
  destruct (Copy_fields r r' H) as (_ & H2 & _ & _ & _ & _ & _ & H8 & _ & H10 & _).
  split; [exact H2|split; [exact H8|exact H10]].
Defined.

Lemma Decode_Encode_result_witness :
  let r := fst (fst (UpdateHTTP (decoded_http (http_payload_iss_baro 1600000000))
                       (NewReport false))) in
  match lastBytes r with
  | None => Decode 1600000100 (Encode r) (NewReport false) =
              (NewReport false, GoErr err_json_syntax, HookNotRun)
  | Some _ => snd (fst (Decode 1600000100 (Encode r) (NewReport false))) = GoOk
  end.
Proof.
  apply Decode_Encode_result.
  - exact (reachable_merge (MergeHTTP (decoded_http (http_payload_iss_baro 1600000000)))
             (NewReport false) (reachable_new false)).
  - vm_compute. reflexivity.
Defined.

Lemma httpEventLoop_error_witness :
  let r := fst (fst (UpdateHTTP (decoded_http (http_payload_iss_baro 10000000000000))
                       (NewReport false))) in
  let '(r', res) := httpEventLoop_step (Some (http_payload_iss_baro 10000000000000)) r in
  res = GoErr err_marshal /\
  (r' = r \/
   (err_marshal = err_marshal /\ book r' = book r /\ times_marshalable r' = false /\
    exists c d ts,
      fetchConditionsHTTP (Some (http_payload_iss_baro 10000000000000)) = ROk c /\
      Parser.ch_Data c = Some d /\ Parser.wh_Timestamp d = Some ts /\
      process_conditions (Parser.wh_Conditions d) (set_DeviceID (Parser.wh_DeviceID d) r)
        = (r', false))).
Proof.
  intros r.
  destruct (httpEventLoop_step (Some (http_payload_iss_baro 10000000000000)) r)
    as [r' res] eqn:E.
  assert (Hres : res = GoErr err_marshal).
  { pose proof (f_equal snd E) as H. vm_compute in H. exact (eq_sym H). }
  subst res. split; [reflexivity|].
  exact (httpEventLoop_error _ r r' err_marshal E).
Defined.

Lemma ParseHTTP_missing_type_panics_witness :
  Parser.ParseHTTP
    (JObj ([("error", JNull)] ++
           ("data", JObj ([("did", JStr "X"); ("ts", JNum 1600000000)] ++
                          ("conditions", JArr [JObj [("lsid", JNum 1)]]) :: [])) :: [])) =
  RPanic.
Proof.
  assert (Hh : Unmarshal Parser.dec_conditionHeader (Parser.mkHeader None None)
                 (JObj [("lsid", JNum 1)]) = ROk (Parser.mkHeader (Some 1%Z) None))
    by (vm_compute; reflexivity).
  rewrite (ParseHTTP_missing_type_panics (JObj [("lsid", JNum 1)])
             (Parser.mkHeader (Some 1%Z) None) [] [("error", JNull)]
             [("did", JStr "X"); ("ts", JNum 1600000000)] [] [] Hh eq_refl).
  vm_compute. reflexivity.
Defined.

Lemma ParseUDP_bad_ts_witness :
  Parser.ParseUDP (JObj ([("did", JStr "X")] ++
                         ("ts", JStr "1600000000") :: [("conditions", JArr [])])) =
  RErr err_parseint.
Proof.
  rewrite (ParseUDP_bad_ts [("did", JStr "X")] (JStr "1600000000") [("conditions", JArr [])] I).
  vm_compute. reflexivity.
Defined.
